(** * Bayesian optimisation loop ([bayesopt/bo.py]): embedding and properties

    The class [BayesOpt] keeps a Gaussian-process surrogate, two parallel
    history lists and a best-so-far pair, and drives them from [run_optim].
    The object is a record, its methods run in a state-and-exception monad
    whose state survives an exception (a Python object that was mutated
    before a [raise] stays mutated).  Callables handed in by the caller (the
    objective, the acquisition optimiser, the termination predicate), the
    progress bar and the regression object are collaborators: each call on
    one of them is appended to a call log, so that the order in which the
    loop talks to them can be stated.

    Conventions of the embedding.  A collaborator is a function of its
    arguments that answers a value or raises; it does not mutate what it is
    handed.  Floating-point numbers are an abstract type with its [<]; the
    theorems that need [<] to be a strict order say so.  A value of this
    type is a number as numpy holds it, a scalar or an array of one
    element, and [ndim] tells which, since [np.array] of a list of values
    takes its shape from it.  Python integers
    are [Z].  The private attributes [self.__x] are the record fields [x],
    and the read-only properties [best_params], [best_value], [gpr],
    [kernel], [alpha] and [acq] are the fields themselves. *)

From Stdlib Require Import String QArith ZArith List Bool Lia.
Import ListNotations.
Open Scope Z_scope.
Set Implicit Arguments.

(** ** Exceptions and results *)

Inductive exn : Type :=
| ValueError (msg : string)
| ShapeError
| ValidationError
| NumericalError
| UserCallableError (tag : string).

Inductive result (A : Type) : Type :=
| Ok (a : A)
| Raise (e : exn).
Arguments Ok {A} a.
Arguments Raise {A} e.

(** ** The state-and-exception monad

    [M S A] is a computation over a mutable state [S] that returns an [A] or
    raises; the state reached when the exception left is kept. *)

Definition M (S A : Type) : Type := S -> S * result A.

Definition ret {S A} (a : A) : M S A := fun s => (s, Ok a).

Definition raise {S A} (e : exn) : M S A := fun s => (s, Raise e).

Definition bind {S A B} (m : M S A) (k : A -> M S B) : M S B :=
  fun s => match m s with
           | (s', Ok a) => k a s'
           | (s', Raise e) => (s', Raise e)
           end.

Declare Scope py_scope.
Delimit Scope py_scope with py.
Notation "x <- c1 ;; c2" := (bind c1 (fun x => c2))
  (at level 100, c1 at next level, right associativity) : py_scope.
Notation "' pat <- c1 ;; c2" := (bind c1 (fun x => match x with pat => c2 end))
  (at level 100, pat pattern, c1 at next level, right associativity) : py_scope.
Notation "c1 ;; c2" := (bind c1 (fun _ => c2))
  (at level 100, right associativity) : py_scope.
Open Scope py_scope.

(** [for x in xs: body], where [body] answers [true] when it leaves the loop
    through [break]. *)
Fixpoint for_in {S A} (xs : list A) (body : A -> M S bool) : M S unit :=
  match xs with
  | [] => ret tt
  | x :: xs' => b <- body x ;; if (b : bool) then ret tt else for_in xs' body
  end.

(** [range(n)] for a Python integer [n]: empty when [n <= 0]. *)
Definition range (n : Z) : list Z := map Z.of_nat (seq 0 (Z.to_nat n)).

(** ** Kernels *)

Inductive Kernel : Type :=
| GaussianRBFKernel (h a : Q)
| CustomKernel (name : string).

Section BayesianOptimization.

(** Floating-point numbers are kept abstract: a type [num] of the values
    the program handles, a coordinate of a location or a value the
    objective answered.  Such a value is a number as numpy holds it, a
    scalar or an array of one element; the two compare alike and [ndim]
    tells them apart.  The acquisition function is passed through
    untouched. *)
Variable num : Type.
Variable acq_fn : Type.

(** ** Arrays

    One- and two-dimensional arrays carry their contents; of an array of
    higher rank only the rank and the leading dimension matter. *)
Inductive ndarray : Type :=
| Arr1 (xs : list num)
| Arr2 (rows : list (list num))
| ArrN (rank lead : nat).

(** [a.shape[0]] *)
Definition shape0 (a : ndarray) : nat :=
  match a with
  | Arr1 xs => length xs
  | Arr2 rows => length rows
  | ArrN _ lead => lead
  end.

Definition rectangular (rows : list (list num)) : bool :=
  match rows with
  | [] => true
  | r :: rs => forallb (fun r' => Nat.eqb (length r') (length r)) rs
  end.

(** Modelled from the spec: [GaussianProcess.utils.transform_data] is not in
    the source tree.  A one-dimensional sequence is promoted to shape
    [(n, 1)], a two-dimensional array is kept, ragged or higher-rank input
    fails with a shape error. *)
Definition transform_data (raw : ndarray) : result (list (list num)) :=
  match raw with
  | Arr1 xs => Ok (map (fun x => [x]) xs)
  | Arr2 rows => if rectangular rows then Ok rows else Raise ShapeError
  | ArrN _ _ => Raise ShapeError
  end.

(** Modelled from the spec: [GaussianProcess.utils.data_checker] is not in
    the source tree.  It fails with a validation error when the sample
    counts of [X] and [Y] differ. *)
Definition data_checker (X : list (list num)) (Y : ndarray) : result unit :=
  if Nat.eqb (length X) (shape0 Y) then Ok tt else Raise ValidationError.

(** [np.atleast_2d] on a one-dimensional location. *)
Definition atleast_2d (loc : list num) : list (list num) := [loc].

(** ** The surrogate *)

(** Modelled from the spec: the class [GaussianProcess.GPR] is not in the
    source tree.  The regression object owns its training set (locations
    and values, row by row), a kernel and the regularisation scalar. *)
Record GPR : Type := mkGPR {
  X_train : list (list num);
  Y_train : list (list num);
  gpr_alpha : Q;
  gpr_kernel : Kernel
}.

Inductive bar_call : Type :=
| tqdm (total : Z)
| set_description_str (s : string)
| set_postfix_str (loc : list num) (Y_obs : num)
                  (best_params : option (list num)) (best_value : option num)
| update
| close.

(** What the module imports and the class does not receive as an argument:
    the comparison of numbers ([ltb] is Python's [<]; [a > b] is [ltb b a]),
    the rank of a value ([ndim] is [np.ndim]: [0] for a scalar, [1] for an
    array of shape [(1,)], [2] for one of shape [(1, 1)]), the numerical
    side of the regression ([gpr_fit_ok]: whether the regularised
    covariance of a set of training locations can be factorised, which is
    floating-point linear algebra), and the progress bar ([tqdm_bar]: what
    a call on the bar answers). *)
Class Imports : Type := {
  ltb : num -> num -> bool;
  ndim : num -> nat;
  gpr_fit_ok : Kernel -> Q -> list (list num) -> bool;
  tqdm_bar : bar_call -> result unit
}.

Context {imports : Imports}.

Definition gtb (a b : num) : bool := ltb b a.

(** [np.array(ys)] for the list [ys] of the values an objective answered:
    scalars make an array of shape [(n,)], arrays of one element an array
    of shape [(n, 1)], values of a higher rank [d] an array of rank
    [d + 1]; numpy refuses a list whose members differ in rank. *)
Definition np_array (ys : list num) : result ndarray :=
  match ys with
  | [] => Ok (Arr1 [])
  | y :: _ =>
      if forallb (fun z => Nat.eqb (ndim z) (ndim y)) ys
      then Ok (match ndim y with
               | O => Arr1 ys
               | S O => Arr2 (map (fun z => [z]) ys)
               | S (S d) => ArrN (S (S (S d))) (length ys)
               end)
      else Raise (ValueError "setting an array element with a sequence.")
  end.

Definition rows_of (Y : ndarray) : list (list num) :=
  match Y with
  | Arr1 ys => map (fun y => [y]) ys
  | Arr2 rows => rows
  | ArrN _ _ => []
  end.

(** Modelled from the spec: the constructor of [GaussianProcess.GPR] is not
    in the source tree.  It builds the model from the initial batch; a
    covariance that cannot be factorised is a numerical error that
    propagates. *)
Definition GPR_new (X : list (list num)) (Y : ndarray) (alpha : Q) (kernel : Kernel)
  : result GPR :=
  if gpr_fit_ok kernel alpha X
  then Ok (mkGPR X (rows_of Y) alpha kernel)
  else Raise NumericalError.

(** Modelled from the spec: [GaussianProcess.GPR.append_data] is not in the
    source tree.  It adds one observation to the training set without
    discarding the prior ones; a fit that fails raises a numerical error,
    and the training set then stays what it was (the spec keeps it equal to
    the initial batch and the history at all times). *)
Definition GPR_append_data (g : GPR) (x : list (list num)) (y : num) : result GPR :=
  if gpr_fit_ok (gpr_kernel g) (gpr_alpha g) (X_train g ++ x)
  then Ok (mkGPR (X_train g ++ x) (Y_train g ++ [[y]]) (gpr_alpha g) (gpr_kernel g))
  else Raise NumericalError.

(** ** Collaborators and the call log *)

(** How the objective is called: [f(x1, ..., xd)] or [f(X)] with a
    two-dimensional [X]. *)
Inductive call_args : Type :=
| Positional (xs : list num)
| Packed (X : list (list num)).

Inductive call : Type :=
| Call_objective (args : call_args)
| Call_GPR (X : list (list num)) (Y : ndarray)
| Call_append_data (x : list (list num)) (y : num)
| Call_acq_optimizer (g : GPR) (it : Z)
| Call_bar (b : bar_call)
| Call_terminate (it : Z) (Xh : list (list num)) (Yh : list num).

Definition objective_fn : Type := call_args -> result num.
Definition acq_optim_fn : Type := GPR -> acq_fn -> Z -> result (list num * num).
Definition terminate_fn : Type := Z -> list (list num) -> list num -> result bool.

(** ** The object *)

Record BayesOpt : Type := mkBayesOpt {
  objectivefunction : objective_fn;
  initial_X : list (list num);
  function_unpack : bool;
  initial_Y : ndarray;
  maximize : bool;
  kernel : Kernel;
  alpha : Q;
  gpr : GPR;
  X_history : list (list num);
  Y_history : list num;
  best_value : option num;
  best_params : option (list num);
  acq : acq_fn;
  acq_optimizer : acq_optim_fn
}.

Definition set_gpr (g : GPR) (o : BayesOpt) : BayesOpt :=
  mkBayesOpt (objectivefunction o) (initial_X o) (function_unpack o) (initial_Y o)
    (maximize o) (kernel o) (alpha o) g (X_history o) (Y_history o)
    (best_value o) (best_params o) (acq o) (acq_optimizer o).

Definition set_X_history (xs : list (list num)) (o : BayesOpt) : BayesOpt :=
  mkBayesOpt (objectivefunction o) (initial_X o) (function_unpack o) (initial_Y o)
    (maximize o) (kernel o) (alpha o) (gpr o) xs (Y_history o)
    (best_value o) (best_params o) (acq o) (acq_optimizer o).

Definition set_Y_history (ys : list num) (o : BayesOpt) : BayesOpt :=
  mkBayesOpt (objectivefunction o) (initial_X o) (function_unpack o) (initial_Y o)
    (maximize o) (kernel o) (alpha o) (gpr o) (X_history o) ys
    (best_value o) (best_params o) (acq o) (acq_optimizer o).

Definition set_best_value (v : option num) (o : BayesOpt) : BayesOpt :=
  mkBayesOpt (objectivefunction o) (initial_X o) (function_unpack o) (initial_Y o)
    (maximize o) (kernel o) (alpha o) (gpr o) (X_history o) (Y_history o)
    v (best_params o) (acq o) (acq_optimizer o).

Definition set_best_params (p : option (list num)) (o : BayesOpt) : BayesOpt :=
  mkBayesOpt (objectivefunction o) (initial_X o) (function_unpack o) (initial_Y o)
    (maximize o) (kernel o) (alpha o) (gpr o) (X_history o) (Y_history o)
    (best_value o) p (acq o) (acq_optimizer o).

(** ** Construction

    [__init__] runs over the call log alone: the object exists for the
    caller only when it returns. *)

Definition called {A} (c : call) (r : result A) : M (list call) A :=
  fun log => (log ++ [c], r).

Definition lift {S A} (r : result A) : M S A := fun s => (s, r).

(** The loop of [__calculate_initialY] (lines 82-89); [iniY] is the list
    being built. *)
Fixpoint initialY_loop (f : objective_fn) (unpack : bool)
    (rows : list (list num)) (iniY : list num) : M (list call) (list num) :=
  match rows with
  | [] => ret iniY
  | iniX :: rest =>
      y <- (if unpack
            then called (Call_objective (Positional iniX)) (f (Positional iniX))
            else called (Call_objective (Packed (atleast_2d iniX)))
                        (f (Packed (atleast_2d iniX)))) ;;
      initialY_loop f unpack rest (iniY ++ [y])
  end.

Definition __calculate_initialY (f : objective_fn) (X : list (list num))
    (unpack : bool) (initial_Y : option ndarray) : M (list call) ndarray :=
  match initial_Y with
  | None =>
      iniY <- initialY_loop f unpack X [] ;;
      lift (np_array iniY)
  | Some Y =>
      if negb (Nat.eqb (shape0 Y) (length X))
      then raise (ValueError "Y must be the same size as the number of data in X.")
      else rows <- lift (transform_data Y) ;; ret (Arr2 rows)
  end.

(** [BayesOpt.__init__]; the Python defaults are [initial_Y=None],
    [kernel=None], [alpha=1e-6], [maximize=False],
    [function_input_unpacking=True]. *)
Definition __init__ (f : objective_fn) (initial_input : ndarray) (acq0 : acq_fn)
    (acq_optim : acq_optim_fn) (initial_Y0 : option ndarray)
    (kernel0 : option Kernel) (alpha0 : Q) (maximize0 : bool)
    (function_input_unpacking : bool) : M (list call) BayesOpt :=
  X <- lift (transform_data initial_input) ;;
  Y <- __calculate_initialY f X function_input_unpacking initial_Y0 ;;
  lift (data_checker X Y) ;;
  let k := match kernel0 with
           | None => GaussianRBFKernel 1 1
           | Some k => k
           end in
  g <- called (Call_GPR X Y) (GPR_new X Y alpha0 k) ;;
  ret (mkBayesOpt f X function_input_unpacking Y maximize0 k alpha0 g
         [] [] None None acq0 acq_optim).

Definition default_alpha : Q := 1 # 1000000.

(** ** The optimisation loop

    [run_optim] mutates the object; its state is the object together with the
    call log. *)

Record World : Type := mkWorld {
  self : BayesOpt;
  calls : list call
}.

Definition get_self : M World BayesOpt := fun w => (w, Ok (self w)).

Definition update_self (f : BayesOpt -> BayesOpt) : M World unit :=
  fun w => (mkWorld (f (self w)) (calls w), Ok tt).

Definition call_out {A} (c : call) (r : result A) : M World A :=
  fun w => (mkWorld (self w) (calls w ++ [c]), r).

(** [self.__gpr.append_data(x, y)]: the regression object is updated in
    place. *)
Definition gpr_append_data (x : list (list num)) (y : num) : M World unit :=
  s <- get_self ;;
  g <- call_out (Call_append_data x y) (GPR_append_data (gpr s) x y) ;;
  update_self (set_gpr g).

(** [with tqdm(total=max_iter) as bar: body].  The bar is closed on the way
    out, also when [body] raised; it does not swallow the exception. *)
Definition with_tqdm {A} (total : Z) (body : M World A) : M World A :=
  call_out (Call_bar (tqdm total)) (tqdm_bar (tqdm total)) ;;
  fun w =>
    let (w1, r) := body w in
    let w2 := mkWorld (self w1) (calls w1 ++ [Call_bar close]) in
    match tqdm_bar close with
    | Ok _ => (w2, r)
    | Raise e => (w2, Raise e)
    end.

(** The body of the [for] loop of [run_optim] (lines 114-138); it answers
    [true] when the loop is left through [break]. *)
Definition run_optim_body (terminate_function : option terminate_fn) (i : Z)
  : M World bool :=
  s <- get_self ;;
  '(loc, acq_val) <- call_out (Call_acq_optimizer (gpr s) i)
                              (acq_optimizer s (gpr s) (acq s) i) ;;
  Y_obs <- (if function_unpack s
            then call_out (Call_objective (Positional loc))
                          (objectivefunction s (Positional loc))
            else call_out (Call_objective (Packed (atleast_2d loc)))
                          (objectivefunction s (Packed (atleast_2d loc)))) ;;
  gpr_append_data (atleast_2d loc) Y_obs ;;
  update_self (fun s => set_X_history (X_history s ++ [loc]) s) ;;
  update_self (fun s => set_Y_history (Y_history s ++ [Y_obs]) s) ;;
  s <- get_self ;;
  (if maximize s
   then
     if match best_value s with None => true | Some b => gtb Y_obs b end
     then update_self (set_best_value (Some Y_obs)) ;;
          update_self (set_best_params (Some loc))
     else ret tt
   else
     if match best_value s with None => true | Some b => ltb Y_obs b end
     then update_self (set_best_value (Some Y_obs)) ;;
          update_self (set_best_params (Some loc))
     else ret tt) ;;
  s <- get_self ;;
  call_out (Call_bar (set_description_str "BayesOpt"))
           (tqdm_bar (set_description_str "BayesOpt")) ;;
  call_out (Call_bar (set_postfix_str loc Y_obs (best_params s) (best_value s)))
           (tqdm_bar (set_postfix_str loc Y_obs (best_params s) (best_value s))) ;;
  call_out (Call_bar update) (tqdm_bar update) ;;
  match terminate_function with
  | None => ret false
  | Some t =>
      s <- get_self ;;
      b <- call_out (Call_terminate i (X_history s) (Y_history s))
                    (t i (X_history s) (Y_history s)) ;;
      if (b : bool)
      then ret true      (* print(...); break *)
      else ret false
  end.

Definition run_optim (max_iter : Z) (terminate_function : option terminate_fn)
  : M World unit :=
  with_tqdm max_iter
    (for_in (range max_iter) (run_optim_body terminate_function)).

(** ** Read-only properties

    The two history properties are given by their entries, in the order of
    the histories: the locations row by row, the values one by one. *)

Definition param_history (o : BayesOpt) : ndarray := Arr2 (X_history o).
Definition value_history (o : BayesOpt) : ndarray := Arr1 (Y_history o).
Definition maximization (o : BayesOpt) : bool := maximize o.
Definition n_trial (o : BayesOpt) : Z := Z.of_nat (length (Y_history o)).

(** ** Vocabulary of the properties *)

(** The argument list the objective receives for one location under each
    convention. *)
Definition objective_args (unpack : bool) (loc : list num) : call_args :=
  if unpack then Positional loc else Packed (atleast_2d loc).

(** [better mx y b]: [y] is strictly better than [b] in the direction [mx]. *)
Definition better (mx : bool) (y b : num) : bool :=
  if mx then gtb y b else ltb y b.

(** [v] is extremal in [vals]: it occurs there and nothing there beats it. *)
Definition extremum_of (mx : bool) (vals : list num) (v : num) : Prop :=
  In v vals /\ forall w, In w vals -> better mx w v = false.

(** The values of the initial batch, one per row. *)
Definition initial_values (o : BayesOpt) : list num := concat (rows_of (initial_Y o)).

(** The object once lines 119-130 have run for the location [loc], the
    observed value [y] and the updated regression object [g]. *)
Definition improves (o : BayesOpt) (y : num) : bool :=
  match best_value o with
  | None => true
  | Some b => better (maximize o) y b
  end.

Definition observe (g : GPR) (loc : list num) (y : num) (o : BayesOpt) : BayesOpt :=
  let o1 := set_Y_history (Y_history o ++ [y])
              (set_X_history (X_history o ++ [loc]) (set_gpr g o)) in
  if improves o y
  then set_best_params (Some loc) (set_best_value (Some y) o1)
  else o1.

(** The three calls on the bar of one iteration, and what they log: the
    calls up to the first one that raises. *)
Definition bar_calls (loc : list num) (y : num) (o : BayesOpt) : list bar_call :=
  [set_description_str "BayesOpt";
   set_postfix_str loc y (best_params o) (best_value o);
   update].

Fixpoint notify (bs : list bar_call) : list call * option exn :=
  match bs with
  | [] => ([], None)
  | b :: bs' =>
      match tqdm_bar b with
      | Ok _ => let (l, r) := notify bs' in (Call_bar b :: l, r)
      | Raise e => ([Call_bar b], Some e)
      end
  end.

(** One iteration written out case by case; [run_optim_body_unfold] shows
    that the loop body computes exactly this. *)
Definition iteration (terminate_function : option terminate_fn) (i : Z)
    (w : World) : World * result bool :=
  let o := self w in
  let c1 := Call_acq_optimizer (gpr o) i in
  match acq_optimizer o (gpr o) (acq o) i with
  | Raise e => (mkWorld o (calls w ++ [c1]), Raise e)
  | Ok (loc, _) =>
      let c2 := Call_objective (objective_args (function_unpack o) loc) in
      match objectivefunction o (objective_args (function_unpack o) loc) with
      | Raise e => (mkWorld o (calls w ++ [c1; c2]), Raise e)
      | Ok y =>
          let c3 := Call_append_data (atleast_2d loc) y in
          match GPR_append_data (gpr o) (atleast_2d loc) y with
          | Raise e => (mkWorld o (calls w ++ [c1; c2; c3]), Raise e)
          | Ok g =>
              let o' := observe g loc y o in
              let (l, r) := notify (bar_calls loc y o') in
              match r with
              | Some e => (mkWorld o' (calls w ++ [c1; c2; c3] ++ l), Raise e)
              | None =>
                  match terminate_function with
                  | None => (mkWorld o' (calls w ++ [c1; c2; c3] ++ l), Ok false)
                  | Some t =>
                      (mkWorld o'
                         (calls w ++ [c1; c2; c3] ++ l ++
                          [Call_terminate i (X_history o') (Y_history o')]),
                       t i (X_history o') (Y_history o'))
                  end
              end
          end
      end
  end.

(** Objects a caller can hold: built by [__init__], then driven by any number
    of calls of [run_optim], whatever their outcome. *)
Inductive reachable : BayesOpt -> Prop :=
| reach_init f initial_input acq0 acq_optim initial_Y0 kernel0 alpha0 maximize0
    unpack log log' o :
    __init__ f initial_input acq0 acq_optim initial_Y0 kernel0 alpha0 maximize0
      unpack log = (log', Ok o) ->
    reachable o
| reach_run o max_iter terminate_function log w' r :
    reachable o ->
    run_optim max_iter terminate_function (mkWorld o log) = (w', r) ->
    reachable (self w').

(** The surrogate's training set is the initial batch followed by the
    history. *)
Definition in_step (o : BayesOpt) : Prop :=
  X_train (gpr o) = initial_X o ++ X_history o /\
  Y_train (gpr o) = rows_of (initial_Y o) ++ map (fun y => [y]) (Y_history o).

(** The fields set at construction and left alone afterwards. *)
Definition same_configuration (o o' : BayesOpt) : Prop :=
  objectivefunction o' = objectivefunction o /\
  initial_X o' = initial_X o /\
  function_unpack o' = function_unpack o /\
  initial_Y o' = initial_Y o /\
  maximize o' = maximize o /\
  kernel o' = kernel o /\
  alpha o' = alpha o /\
  acq o' = acq o /\
  acq_optimizer o' = acq_optimizer o.

(** The best-so-far pair is an entry of the history; it is unset only while
    the history is empty. *)
Definition best_recorded (o : BayesOpt) : Prop :=
  length (X_history o) = length (Y_history o) /\
  match best_value o with
  | None => best_params o = None /\ Y_history o = []
  | Some v =>
      exists p j, best_params o = Some p /\
                  nth_error (X_history o) j = Some p /\
                  nth_error (Y_history o) j = Some v
  end.

(** Nothing in the history beats the best-so-far value. *)
Definition best_unbeaten (o : BayesOpt) : Prop :=
  match best_value o with
  | None => True
  | Some v => forall w, In w (Y_history o) -> better (maximize o) w v = false
  end.

(** [o'] is [o] after the observations [Xs], [Ys] were made, in this order. *)
Definition extended_by (o o' : BayesOpt) (Xs : list (list num)) (Ys : list num)
  : Prop :=
  same_configuration o o' /\
  length Xs = length Ys /\
  X_history o' = X_history o ++ Xs /\
  Y_history o' = Y_history o ++ Ys /\
  X_train (gpr o') = X_train (gpr o) ++ Xs /\
  Y_train (gpr o') = Y_train (gpr o) ++ map (fun y => [y]) Ys.

(** The best value of [o'] is that of [o] or a strictly better one. *)
Definition not_worse (o o' : BayesOpt) : Prop :=
  forall b, best_value o = Some b ->
  exists b', best_value o' = Some b' /\
             (b' = b \/ better (maximize o) b' b = true).

(** In the log, the call [c1] was made before the call [c2]. *)
Definition called_before (c1 c2 : call) (log : list call) : Prop :=
  exists l1 l2 l3, log = l1 ++ c1 :: l2 ++ c2 :: l3.

(** In a run that started with [n0] recorded observations, every surrogate
    in [log] that was handed to the acquisition optimiser at iteration [k]
    holds the initial batch followed by the first [n0 + k] observations of
    the object [o]. *)
Definition proposals_in_step (n0 : nat) (o : BayesOpt) (log : list call) : Prop :=
  forall g it, In (Call_acq_optimizer g it) log ->
  exists k, it = Z.of_nat k /\ (n0 + k <= length (X_history o))%nat /\
            (n0 + k <= length (Y_history o))%nat /\
            X_train g = initial_X o ++ firstn (n0 + k) (X_history o) /\
            Y_train g = rows_of (initial_Y o) ++
                        map (fun y => [y]) (firstn (n0 + k) (Y_history o)).

Definition is_bar_call (c : call) : Prop :=
  match c with Call_bar _ => True | _ => False end.

(** The call [c], made by an iteration on the object [o], raised [e]. *)
Definition raised_by (o : BayesOpt) (terminate_function : option terminate_fn)
    (c : call) (e : exn) : Prop :=
  match c with
  | Call_acq_optimizer g it => acq_optimizer o g (acq o) it = Raise e
  | Call_objective a => objectivefunction o a = Raise e
  | Call_append_data x y => GPR_append_data (gpr o) x y = Raise e
  | Call_bar b => tqdm_bar b = Raise e
  | Call_terminate it Xh Yh =>
      exists t, terminate_function = Some t /\ t it Xh Yh = Raise e
  | Call_GPR _ _ => False
  end.

(** The iteration from [o] to [o'] recorded the observation [(loc, y)]:
    the append to both histories and the update of the best pair. *)
Definition recorded (o o' : BayesOpt) (loc : list num) (y : num) : Prop :=
  X_history o' = X_history o ++ [loc] /\
  Y_history o' = Y_history o ++ [y] /\
  best_value o' = (if improves o y then Some y else best_value o) /\
  best_params o' = (if improves o y then Some loc else best_params o).

(** The iteration from [o] to [o'] recorded nothing. *)
Definition untouched (o o' : BayesOpt) : Prop :=
  X_history o' = X_history o /\ Y_history o' = Y_history o /\
  best_value o' = best_value o /\ best_params o' = best_params o.

(** Every value of the history is what the objective answered for the
    location recorded with it, called under the object's convention. *)
Definition history_evaluates (o : BayesOpt) : Prop :=
  Forall2 (fun loc y =>
             objectivefunction o (objective_args (function_unpack o) loc) = Ok y)
          (X_history o) (Y_history o).

(** ** Vocabulary of the call log

    What a log holds of each kind of call, in the order of the log: the
    surrogates and indices handed to the acquisition optimiser, the
    argument lists given to the objective, the observations given to the
    surrogate, the questions put to the predicate and the messages sent to
    the bar. *)
Definition proposals (log : list call) : list (GPR * Z) :=
  flat_map (fun c => match c with
                     | Call_acq_optimizer g it => [(g, it)]
                     | _ => []
                     end) log.

Definition evaluations (log : list call) : list call_args :=
  flat_map (fun c => match c with Call_objective a => [a] | _ => [] end) log.

Definition updates (log : list call) : list (list (list num) * num) :=
  flat_map (fun c => match c with
                     | Call_append_data x y => [(x, y)]
                     | _ => []
                     end) log.

Definition questions (log : list call) : list (Z * list (list num) * list num) :=
  flat_map (fun c => match c with
                     | Call_terminate it Xh Yh => [(it, Xh, Yh)]
                     | _ => []
                     end) log.

Definition bar_messages (log : list call) : list bar_call :=
  flat_map (fun c => match c with Call_bar b => [b] | _ => [] end) log.

(** The surrogate of [o] once the observations [Xs], [Ys] were appended to
    it one by one. *)
Definition surrogate_after (o : BayesOpt) (Xs : list (list num)) (Ys : list num)
  : GPR :=
  mkGPR (X_train (gpr o) ++ Xs) (Y_train (gpr o) ++ map (fun y => [y]) Ys)
        (gpr_alpha (gpr o)) (gpr_kernel (gpr o)).

(** What the predicate answers in iteration [k] of a run that found the
    histories [X0], [Y0] and appended [Xs], [Ys] to them. *)
Definition predicate_answer_from (terminate_function : option terminate_fn)
    (X0 : list (list num)) (Y0 : list num) (Xs : list (list num)) (Ys : list num)
    (k : nat) : result bool :=
  match terminate_function with
  | None => Ok false
  | Some t => t (Z.of_nat k) (X0 ++ firstn (S k) Xs) (Y0 ++ firstn (S k) Ys)
  end.

(** Two objects that differ in the direction of the optimisation and in the
    best pair only. *)
Definition same_but_direction (o1 o2 : BayesOpt) : Prop :=
  objectivefunction o1 = objectivefunction o2 /\
  initial_X o1 = initial_X o2 /\ function_unpack o1 = function_unpack o2 /\
  initial_Y o1 = initial_Y o2 /\ kernel o1 = kernel o2 /\
  alpha o1 = alpha o2 /\ gpr o1 = gpr o2 /\
  X_history o1 = X_history o2 /\ Y_history o1 = Y_history o2 /\
  acq o1 = acq o2 /\ acq_optimizer o1 = acq_optimizer o2.

(** The best pair of [o] is the entry [j] of the history, the first one that
    nothing in the history beats. *)
Definition best_is_first_at (o : BayesOpt) (j : nat) : Prop :=
  nth_error (X_history o) j = best_params o /\
  nth_error (Y_history o) j = best_value o /\
  forall v, best_value o = Some v ->
    (forall k w, nth_error (Y_history o) k = Some w ->
                 better (maximize o) w v = false) /\
    (forall k w, (k < j)%nat -> nth_error (Y_history o) k = Some w ->
                 better (maximize o) v w = true).

(** The proposals of the first [m] iterations of a run from [o] that
    appended [Xs], [Ys]: iteration [k] hands over the surrogate that holds
    the observations before [k]. *)
Definition expected_proposals (o : BayesOpt) (m : nat)
    (Xs : list (list num)) (Ys : list num) : list (GPR * Z) :=
  map (fun k => (surrogate_after o (firstn k Xs) (firstn k Ys), Z.of_nat k))
      (seq 0 m).

(** The observations [Xs], [Ys] are what the collaborators of [o] answer
    one after the other: location [k] is the acquisition optimiser's answer
    at index [k] for the surrogate that holds the observations before [k],
    and value [k] is the objective's answer at that location. *)
Definition follows_recurrence (o : BayesOpt) (Xs : list (list num))
    (Ys : list num) : Prop :=
  forall k loc y,
    nth_error Xs k = Some loc -> nth_error Ys k = Some y ->
    (exists av,
       acq_optimizer o (surrogate_after o (firstn k Xs) (firstn k Ys)) (acq o)
         (Z.of_nat k) = Ok (loc, av)) /\
    objectivefunction o (objective_args (function_unpack o) loc) = Ok y.

(** What a run from [w] with outcome [r] did, in terms of the [m]
    iterations it started and of the observations [Xs], [Ys] it recorded;
    [new] is what it added to the log. *)
Definition run_trace (w : World) (max_iter : Z) (wr : World * result unit)
    (Xs : list (list num)) (Ys : list num) (new : list call) (m : nat) : Prop :=
  let o := self w in
  extended_by o (self (fst wr)) Xs Ys /\
  gpr (self (fst wr)) = surrogate_after o Xs Ys /\
  calls (fst wr) = calls w ++ new /\
  (length Ys <= m <= S (length Ys))%nat /\
  Z.of_nat m <= Z.max 0 max_iter /\
  (snd wr = Ok tt -> m = length Ys) /\
  proposals new = expected_proposals o m Xs Ys /\
  follows_recurrence o Xs Ys /\
  (exists extra,
     evaluations new = map (objective_args (function_unpack o)) Xs ++ extra /\
     (length extra <= m - length Ys)%nat) /\
  (exists extra,
     updates new = combine (map atleast_2d Xs) Ys ++ extra /\
     (length extra <= m - length Ys)%nat).

(** The state of a run from [w] when its iteration [k] starts: the [k]
    iterations before it each recorded one observation. *)
Definition trace_invariant (w : World) (k : nat) (wk : World)
    (Xs : list (list num)) (Ys : list num) (new : list call) : Prop :=
  let o := self w in
  extended_by o (self wk) Xs Ys /\
  gpr (self wk) = surrogate_after o Xs Ys /\
  length Ys = k /\
  calls wk = calls w ++ new /\
  proposals new = expected_proposals o k Xs Ys /\
  follows_recurrence o Xs Ys /\
  evaluations new = map (objective_args (function_unpack o)) Xs /\
  updates new = combine (map atleast_2d Xs) Ys.

(** The three messages of an iteration, as opposed to the creation and the
    closing of the bar. *)
Definition is_notification (b : bar_call) : Prop :=
  match b with
  | set_description_str _ | set_postfix_str _ _ _ _ | update => True
  | tqdm _ | close => False
  end.

(** The questions a run puts to its predicate when it found the histories
    [X0], [Y0], appended [Xs], [Ys] to them and asked [q] times: question
    [k] carries the index [k] and the histories up to the observation [k]
    included.  Without a predicate nothing is asked. *)
Definition expected_questions (terminate_function : option terminate_fn)
    (X0 : list (list num)) (Y0 : list num) (Xs : list (list num)) (Ys : list num)
    (q : nat) : list (Z * list (list num) * list num) :=
  match terminate_function with
  | None => []
  | Some _ =>
      map (fun k => (Z.of_nat k, X0 ++ firstn (S k) Xs, Y0 ++ firstn (S k) Ys))
          (seq 0 q)
  end.

(** A run that found the histories [X0], [Y0], had the horizon [max_iter]
    and returned after appending [Xs], [Ys] stopped where it had to: after
    the first iteration [i] whose question the predicate answered with
    true, with [i + 1] observations appended, or at the horizon, with
    [max_iter] of them, when no question was answered so or there is no
    predicate. *)
Definition stops_as_asked (terminate_function : option terminate_fn)
    (max_iter : Z) (X0 : list (list num)) (Y0 : list num)
    (Xs : list (list num)) (Ys : list num) : Prop :=
  let answer := predicate_answer_from terminate_function X0 Y0 Xs Ys in
  (exists i, Z.of_nat i < max_iter /\ answer i = Ok true /\
             (forall k, (k < i)%nat -> answer k = Ok false) /\
             Z.of_nat (length Ys) = Z.min max_iter (Z.of_nat i + 1)) \/
  ((forall k, Z.of_nat k < max_iter -> answer k = Ok false) /\
   Z.of_nat (length Ys) = max_iter).

(** In [new], what a run added to the log after it found the histories
    [X0], [Y0], the question of iteration [k] comes when the observation
    [k] is recorded: the run has updated the surrogate [k + 1] times by
    then, last with the observation [k], it has asked [k] questions
    before this one, and the histories in the question end with the
    observation [k]. *)
Definition asked_after_recording (X0 : list (list num)) (Y0 : list num)
    (Xs : list (list num)) (Ys : list num) (new : list call) (k : nat) : Prop :=
  exists before after,
    new = before ++
          Call_terminate (Z.of_nat k) (X0 ++ firstn (S k) Xs) (Y0 ++ firstn (S k) Ys)
          :: after /\
    updates before = combine (map atleast_2d (firstn (S k) Xs)) (firstn (S k) Ys) /\
    length (questions before) = k.

(** The object [o] and the log [log], as a construction without initial
    values and any runs after it left them, show the objective [f]
    evaluated through [pass], which makes the argument list of a call from
    a location.  The values [ys] kept for the initial batch and the values
    of the history are what [f] answered at the location they go with; the
    calls of [f] in the log are [pass] of these locations, in this order
    and once each, and then [extra]. *)
Definition evaluated_through (pass : list num -> call_args) (f : objective_fn)
    (o : BayesOpt) (ys : list num) (log : list call) (extra : list call_args)
  : Prop :=
  np_array ys = Ok (initial_Y o) /\
  Forall2 (fun x y => f (pass x) = Ok y) (initial_X o) ys /\
  Forall2 (fun x y => f (pass x) = Ok y) (X_history o) (Y_history o) /\
  evaluations log = map pass (initial_X o ++ X_history o) ++ extra.

(** The observations an object holds, each location with its value: the
    initial batch, whose values are [ys], and then the history. *)
Definition observations (o : BayesOpt) (ys : list num)
  : list (list num * num) :=
  combine (initial_X o ++ X_history o) (ys ++ Y_history o).

End BayesianOptimization.

Arguments ndarray num : clear implicits.
Arguments bar_call num : clear implicits.
Arguments call num : clear implicits.
Arguments call_args num : clear implicits.
Arguments GPR num : clear implicits.
Arguments Imports num : clear implicits.
Arguments BayesOpt num acq_fn : clear implicits.
Arguments World num acq_fn : clear implicits.
Arguments objective_fn num : clear implicits.
Arguments acq_optim_fn num acq_fn : clear implicits.
Arguments terminate_fn num : clear implicits.
Arguments ArrN {num} rank lead.
Arguments tqdm {num} total.
Arguments set_description_str {num} s.
Arguments update {num}.
Arguments close {num}.

(** ** A concrete instance

    Numbers are integers; the objective is the sum of squares in its two
    forms, [f(x1, ..., xd)] and [f(X) = sum(X**2, axis=1)]. *)
Module Demo.

Definition quiet : Imports Z := {|
  ltb := Z.ltb;
  ndim := fun _ => 0%nat;
  gpr_fit_ok := fun _ _ _ => true;
  tqdm_bar := fun _ => Ok tt
|}.

(** A bar whose [update] raises. *)
Definition broken_bar : Imports Z := {|
  ltb := Z.ltb;
  ndim := fun _ => 0%nat;
  gpr_fit_ok := fun _ _ _ => true;
  tqdm_bar := fun b => match b with
                       | update => Raise (UserCallableError "bar")
                       | _ => Ok tt
                       end
|}.

Definition sum_sq (xs : list Z) : Z := fold_right (fun x a => x * x + a) 0 xs.

Definition f_unpacked : objective_fn Z := fun a =>
  match a with
  | Positional xs => Ok (sum_sq xs)
  | Packed _ => Raise (UserCallableError "TypeError")
  end.

(** Proposes the points [3 - it, 1] in turn. *)
Definition propose : acq_optim_fn Z unit := fun _ _ it => Ok ([3 - it; 1], 0).

(** Stops once a value below [threshold] was observed. *)
Definition below (threshold : Z) : terminate_fn Z := fun _ _ Yh =>
  Ok (existsb (fun y => y <? threshold) Yh).

Definition raising_predicate : terminate_fn Z := fun _ _ _ =>
  Raise (UserCallableError "predicate").

(** The object built from the single initial location [0, 0], whose value
    [0] is computed by the objective; minimisation, unpacked convention. *)
Definition built : BayesOpt Z unit :=
  mkBayesOpt f_unpacked [[0; 0]] true (Arr1 [0]) false (GaussianRBFKernel 1 1)
    default_alpha (mkGPR [[0; 0]] [[0]] default_alpha (GaussianRBFKernel 1 1))
    [] [] None None tt propose.

(** The calls the constructor made for it. *)
Definition built_log : list (call Z) :=
  [Call_objective (Positional [0; 0]); Call_GPR [[0; 0]] (Arr1 [0])].

Definition start : World Z unit := mkWorld built built_log.

(** Five initial locations of dimension two, with four and with five
    values. *)
Definition five_locations : ndarray Z :=
  Arr2 [[0; 0]; [1; 1]; [2; 2]; [3; 3]; [4; 4]].
Definition four_values : ndarray Z := Arr1 [0; 2; 8; 18].
Definition five_values : ndarray Z := Arr1 [0; 2; 8; 18; 32].

(** An objective that is defined for a first coordinate below [2] only. *)
Definition f_domain : objective_fn Z := fun a =>
  match a with
  | Positional [x; y] =>
      if x <? 2 then Ok (x * x + y * y) else Raise (UserCallableError "domain")
  | _ => Raise (UserCallableError "TypeError")
  end.

(** Numbers as numpy holds them: a scalar or an array of shape [(1,)]. *)
Inductive npz : Type :=
| scalar (z : Z)
| array1 (z : Z).

Definition item (v : npz) : Z :=
  match v with scalar z | array1 z => z end.

Definition numpy_values : Imports npz := {|
  ltb := fun a b => item a <? item b;
  ndim := fun v => match v with scalar _ => 0%nat | array1 _ => 1%nat end;
  gpr_fit_ok := fun _ _ _ => true;
  tqdm_bar := fun _ => Ok tt
|}.

(** [f(x1, x2) = x1**2 + x2**2], which answers a scalar. *)
Definition f_two : objective_fn npz := fun a =>
  match a with
  | Positional [x1; x2] => Ok (scalar (item x1 * item x1 + item x2 * item x2))
  | _ => Raise (UserCallableError "TypeError")
  end.

(** [f(X) = sum(X**2, axis=1)] on an array of one row, which answers an
    array of shape [(1,)]. *)
Definition f_rows : objective_fn npz := fun a =>
  match a with
  | Packed [x] => Ok (array1 (sum_sq (map item x)))
  | _ => Raise (UserCallableError "TypeError")
  end.

(** Proposes the points [3 - it, 1] in turn. *)
Definition propose_np : acq_optim_fn npz unit := fun _ _ it =>
  Ok ([scalar (3 - it); scalar 1], scalar 0).

Definition two_locations : ndarray npz :=
  Arr2 [[scalar 0; scalar 0]; [scalar 1; scalar 2]].

(** The objects built from these two locations without initial values, in
    the unpacked mode with [f_two] and in the packed mode with [f_rows],
    and the calls their constructors made. *)
Definition built_two : BayesOpt npz unit :=
  mkBayesOpt f_two [[scalar 0; scalar 0]; [scalar 1; scalar 2]] true
    (Arr1 [scalar 0; scalar 5]) false (GaussianRBFKernel 1 1) default_alpha
    (mkGPR [[scalar 0; scalar 0]; [scalar 1; scalar 2]] [[scalar 0]; [scalar 5]]
       default_alpha (GaussianRBFKernel 1 1))
    [] [] None None tt propose_np.

Definition built_two_log : list (call npz) :=
  [Call_objective (Positional [scalar 0; scalar 0]);
   Call_objective (Positional [scalar 1; scalar 2]);
   Call_GPR [[scalar 0; scalar 0]; [scalar 1; scalar 2]]
     (Arr1 [scalar 0; scalar 5])].

Definition built_rows : BayesOpt npz unit :=
  mkBayesOpt f_rows [[scalar 0; scalar 0]; [scalar 1; scalar 2]] false
    (Arr2 [[array1 0]; [array1 5]]) false (GaussianRBFKernel 1 1) default_alpha
    (mkGPR [[scalar 0; scalar 0]; [scalar 1; scalar 2]] [[array1 0]; [array1 5]]
       default_alpha (GaussianRBFKernel 1 1))
    [] [] None None tt propose_np.

Definition built_rows_log : list (call npz) :=
  [Call_objective (Packed [[scalar 0; scalar 0]]);
   Call_objective (Packed [[scalar 1; scalar 2]]);
   Call_GPR [[scalar 0; scalar 0]; [scalar 1; scalar 2]]
     (Arr2 [[array1 0]; [array1 5]])].

End Demo.

(** * Properties *)

Section Properties.

Context {num acq_fn : Type} {imports : Imports num}.

Implicit Types (o o_u o_p : BayesOpt num acq_fn) (w w_u w_p : World num acq_fn)
  (terminate_function : option (terminate_fn num)).

(** ** The monad and the loop *)

Lemma for_in_cons {S A} (x : A) xs (body : A -> M S bool) s :
  for_in (x :: xs) body s =
  match body x s with
  | (s', Ok false) => for_in xs body s'
  | (s', Ok true) => (s', Ok tt)
  | (s', Raise e) => (s', Raise e)
  end.
Proof.
  simpl. unfold bind. destruct (body x s) as [s' [[|]|e]]; reflexivity.
Qed.

(** ** One iteration *)

Ltac log_normal := repeat rewrite <- app_assoc; simpl.

Ltac case_bar :=
  match goal with
  | |- context [tqdm_bar ?c] => destruct (tqdm_bar c) as [[]|?]; simpl
  end.

Lemma run_optim_body_unfold terminate_function i w :
  run_optim_body terminate_function i w = iteration terminate_function i w.
Proof.
  destruct w as [o log].
  unfold run_optim_body, iteration, gpr_append_data, get_self, call_out,
    update_self, bind, ret, observe, improves, better, objective_args,
    bar_calls, notify; simpl.
  destruct (acq_optimizer o (gpr o) (acq o) i) as [[loc av]|e]; [|reflexivity].
  destruct (function_unpack o); simpl;
    (destruct (objectivefunction o _) as [y|e]; [|log_normal; reflexivity]);
    (destruct (GPR_append_data (gpr o) (atleast_2d loc) y) as [g|e];
       [|log_normal; reflexivity]);
    simpl;
    destruct (maximize o), (best_value o) as [b|]; simpl;
    try destruct (gtb y b); try destruct (ltb y b); simpl;
    repeat case_bar; log_normal; try reflexivity;
    destruct terminate_function as [t|]; simpl; log_normal; try reflexivity;
    match goal with |- context [t ?a ?b ?c] => destruct (t a b c) as [[|]|?] end;
    reflexivity.
Qed.

Arguments notify : simpl never.

Ltac split_iteration :=
  unfold iteration; cbv zeta;
  destruct (acq_optimizer _ _ _ _) as [[?loc ?av]|?e] eqn:?Hacq;
  [ destruct (objectivefunction _ _) as [?y|?e] eqn:?Hobj;
    [ destruct (GPR_append_data _ _ _) as [?g|?e] eqn:?Hgpr;
      [ destruct (notify _) as [?l [?e|]] eqn:?Hbar;
        [ | match goal with
            | |- context [match ?tf with Some _ => _ | None => _ end] =>
                destruct tf as [?t|]
            end ]
      | ]
    | ]
  | ]; simpl.

Lemma GPR_append_data_ok (g g' : GPR num) x y :
  GPR_append_data g x y = Ok g' ->
  X_train g' = X_train g ++ x /\ Y_train g' = Y_train g ++ [[y]] /\
  gpr_alpha g' = gpr_alpha g /\ gpr_kernel g' = gpr_kernel g.
Proof.
  unfold GPR_append_data. destruct (gpr_fit_ok _ _ _); [|discriminate].
  intros H; injection H as <-. simpl. auto.
Qed.

Lemma observe_X_history g loc y o :
  X_history (observe g loc y o) = X_history o ++ [loc].
Proof. unfold observe. destruct (improves o y); reflexivity. Qed.

Lemma observe_Y_history g loc y o :
  Y_history (observe g loc y o) = Y_history o ++ [y].
Proof. unfold observe. destruct (improves o y); reflexivity. Qed.

Lemma observe_gpr g loc y o : gpr (observe g loc y o) = g.
Proof. unfold observe. destruct (improves o y); reflexivity. Qed.

Lemma observe_best_value g loc y o :
  best_value (observe g loc y o) = if improves o y then Some y else best_value o.
Proof. unfold observe. destruct (improves o y); reflexivity. Qed.

Lemma observe_best_params g loc y o :
  best_params (observe g loc y o) = if improves o y then Some loc else best_params o.
Proof. unfold observe. destruct (improves o y); reflexivity. Qed.

Lemma same_configuration_refl o : same_configuration o o.
Proof. repeat split. Qed.

Lemma same_configuration_trans o1 o2 o3 :
  same_configuration o1 o2 -> same_configuration o2 o3 -> same_configuration o1 o3.
Proof.
  unfold same_configuration. intros H1 H2.
  decompose [and] H1; decompose [and] H2; repeat split; congruence.
Qed.

Lemma observe_configuration g loc y o : same_configuration o (observe g loc y o).
Proof. unfold observe. destruct (improves o y); repeat split. Qed.

(** What an iteration does to the object: nothing, or one observation. *)
Lemma iteration_self terminate_function i w :
  self (fst (iteration terminate_function i w)) = self w \/
  exists loc av y g,
    acq_optimizer (self w) (gpr (self w)) (acq (self w)) i = Ok (loc, av) /\
    objectivefunction (self w) (objective_args (function_unpack (self w)) loc) = Ok y /\
    GPR_append_data (gpr (self w)) (atleast_2d loc) y = Ok g /\
    self (fst (iteration terminate_function i w)) = observe g loc y (self w).
Proof.
  split_iteration; auto; right; exists loc, av, y, g; auto.
Qed.

(** An iteration that goes on to the next one has recorded its observation. *)
Lemma iteration_continue terminate_function i w w' b :
  iteration terminate_function i w = (w', Ok b) ->
  exists loc av y g,
    acq_optimizer (self w) (gpr (self w)) (acq (self w)) i = Ok (loc, av) /\
    objectivefunction (self w) (objective_args (function_unpack (self w)) loc) = Ok y /\
    GPR_append_data (gpr (self w)) (atleast_2d loc) y = Ok g /\
    self w' = observe g loc y (self w).
Proof.
  split_iteration; intros H; try discriminate;
    injection H as <- ?; exists loc, av, y, g; auto.
Qed.

(** ** The loop *)

Lemma for_in_rule {S} (body : Z -> M S bool) (n : nat)
    (P : nat -> S -> Prop) (Q : S -> result unit -> Prop) :
  (forall k s, (k < n)%nat -> P k s ->
     match body (Z.of_nat k) s with
     | (s', Ok false) => P (Datatypes.S k) s'
     | (s', Ok true) => Q s' (Ok tt)
     | (s', Raise e) => Q s' (Raise e)
     end) ->
  (forall s, P n s -> Q s (Ok tt)) ->
  forall s, P 0%nat s ->
  Q (fst (for_in (range (Z.of_nat n)) body s))
    (snd (for_in (range (Z.of_nat n)) body s)).
Proof.
  intros Hstep Hend. unfold range. rewrite Nat2Z.id.
  assert (G : forall m a s, (a + m = n)%nat -> P a s ->
            Q (fst (for_in (map Z.of_nat (seq a m)) body s))
              (snd (for_in (map Z.of_nat (seq a m)) body s))).
  { induction m as [|m IH]; intros a s Ha HP.
    - simpl. apply Hend. replace n with a by lia. exact HP.
    - cbn [seq map]. rewrite for_in_cons.
      specialize (Hstep a s ltac:(lia) HP).
      destruct (body (Z.of_nat a) s) as [s' [[|]|e]]; simpl; auto.
      apply IH; [lia|exact Hstep]. }
  intros s HP. apply G; [lia|exact HP].
Qed.

Lemma range_neg n : n <= 0 -> range n = [].
Proof.
  intros H. unfold range. replace (Z.to_nat n) with 0%nat by lia. reflexivity.
Qed.

Lemma run_optim_unfold max_iter terminate_function w :
  run_optim max_iter terminate_function w =
  let w0 := mkWorld (self w) (calls w ++ [Call_bar (tqdm max_iter)]) in
  match tqdm_bar (tqdm max_iter) with
  | Raise e => (w0, Raise e)
  | Ok _ =>
      let (w1, r) := for_in (range max_iter) (run_optim_body terminate_function) w0 in
      let w2 := mkWorld (self w1) (calls w1 ++ [Call_bar close]) in
      match tqdm_bar close with
      | Ok _ => (w2, r)
      | Raise e => (w2, Raise e)
      end
  end.
Proof.
  unfold run_optim, with_tqdm, bind, call_out. simpl.
  destruct (tqdm_bar (tqdm max_iter)); reflexivity.
Qed.

(** An invariant of the object that every iteration keeps is kept by a whole
    run, however it ends. *)
Lemma run_optim_invariant (Inv : BayesOpt num acq_fn -> Prop) :
  (forall terminate_function i w,
     Inv (self w) -> Inv (self (fst (run_optim_body terminate_function i w)))) ->
  forall max_iter terminate_function w,
    Inv (self w) -> Inv (self (fst (run_optim max_iter terminate_function w))).
Proof.
  intros Hbody max_iter tf w Hw. rewrite run_optim_unfold. simpl.
  destruct (tqdm_bar (tqdm max_iter)) as [[]|e]; [|exact Hw].
  set (w0 := mkWorld _ _).
  assert (H : Inv (self (fst (for_in (range max_iter) (run_optim_body tf) w0)))).
  { destruct (Z.le_gt_cases max_iter 0) as [Hn|Hn].
    - rewrite range_neg by exact Hn. exact Hw.
    - rewrite <- (Z2Nat.id max_iter) by lia.
      apply (@for_in_rule _ (run_optim_body tf) (Z.to_nat max_iter)
               (fun _ w => Inv (self w)) (fun w _ => Inv (self w))); auto.
      intros k s _ Hs. specialize (Hbody tf (Z.of_nat k) s Hs).
      destruct (run_optim_body tf (Z.of_nat k) s) as [s' [[|]|e]]; exact Hbody. }
  destruct (for_in _ _ w0) as [w1 r]. simpl in H.
  destruct (tqdm_bar close); exact H.
Qed.

(** ** Construction *)

Lemma init_ok f initial_input acq0 acq_optim initial_Y0 kernel0 alpha0 maximize0
    unpack (log log' : list (call num)) (o : BayesOpt num acq_fn) :
  __init__ f initial_input acq0 acq_optim initial_Y0 kernel0 alpha0 maximize0
    unpack log = (log', Ok o) ->
  X_history o = [] /\ Y_history o = [] /\
  best_value o = None /\ best_params o = None /\
  X_train (gpr o) = initial_X o /\ Y_train (gpr o) = rows_of (initial_Y o) /\
  transform_data initial_input = Ok (initial_X o) /\
  objectivefunction o = f /\ function_unpack o = unpack /\
  maximize o = maximize0.
Proof.
  unfold __init__, bind, lift, called, ret.
  destruct (transform_data initial_input) as [X|e]; [|discriminate].
  destruct (__calculate_initialY f X unpack initial_Y0 log) as [log1 [Y|e]];
    [|discriminate].
  destruct (data_checker X Y) as [[]|e]; [|discriminate].
  unfold GPR_new. destruct (gpr_fit_ok _ _ _); [|discriminate].
  intros H; injection H as _ <-. simpl. repeat split.
Qed.

(** ** The best-so-far pair *)

Lemma observe_best_recorded g loc y o :
  best_recorded o -> best_recorded (observe g loc y o).
Proof.
  intros [Hlen Hb]. unfold best_recorded.
  rewrite observe_X_history, observe_Y_history, observe_best_value,
    observe_best_params, !length_app. simpl.
  split; [lia|].
  destruct (improves o y) eqn:Himp.
  - exists loc, (length (X_history o)). split; [reflexivity|].
    split; [|rewrite Hlen]; rewrite nth_error_app2, Nat.sub_diag by lia;
      reflexivity.
  - unfold improves in Himp. destruct (best_value o) as [v|]; [|discriminate].
    destruct Hb as (p & j & Hp & HX & HY). exists p, j. split; [exact Hp|].
    split; (rewrite nth_error_app1; [assumption|apply nth_error_Some; congruence]).
Qed.

Lemma iteration_best_recorded terminate_function i w :
  best_recorded (self w) ->
  best_recorded (self (fst (run_optim_body terminate_function i w))).
Proof.
  intros H. rewrite run_optim_body_unfold.
  destruct (iteration_self terminate_function i w) as [->|(loc & av & y & g & _ & _ & _ & ->)];
    [exact H|]. now apply observe_best_recorded.
Qed.

Lemma reachable_best_recorded o : reachable o -> best_recorded o.
Proof.
  induction 1 as [f ii a ao iy k al mx un log log' o Hinit
                 | o max_iter tf log w' r _ IH Hrun].
  - apply init_ok in Hinit. destruct Hinit as (HX & HY & Hv & Hp & _).
    unfold best_recorded. rewrite HX, HY, Hv, Hp. auto.
  - replace w' with (fst (run_optim max_iter tf (mkWorld o log)))
      by (rewrite Hrun; reflexivity).
    apply (run_optim_invariant (fun o => best_recorded o));
      [intros; now apply iteration_best_recorded|exact IH].
Qed.

(** C3: with a best pair [(b, p)] in place, an iteration either records
    nothing and leaves the pair alone, or records one observation
    [(loc, y)] and then replaces the pair by it exactly when [y] is strictly
    better than [b] ([>] when maximising, [<] when minimising), so that a
    value equal to [b] keeps the earlier pair; and no run unsets a pair that
    was set. *)
Theorem best_changes_only_on_strict_improvement :
  (forall a : num, ltb a a = false) ->
  (forall terminate_function i w b p,
     best_value (self w) = Some b -> best_params (self w) = Some p ->
     let o' := self (fst (run_optim_body terminate_function i w)) in
     (X_history o' = X_history (self w) /\ Y_history o' = Y_history (self w) /\
      best_value o' = Some b /\ best_params o' = Some p) \/
     exists loc y,
       X_history o' = X_history (self w) ++ [loc] /\
       Y_history o' = Y_history (self w) ++ [y] /\
       ((better (maximize (self w)) y b = true /\ y <> b /\
         best_value o' = Some y /\ best_params o' = Some loc) \/
        (better (maximize (self w)) y b = false /\
         best_value o' = Some b /\ best_params o' = Some p))) /\
  (forall max_iter terminate_function w,
     best_value (self w) <> None /\ best_params (self w) <> None ->
     let o' := self (fst (run_optim max_iter terminate_function w)) in
     best_value o' <> None /\ best_params o' <> None).
Proof.
  intros Hirr. split.
  - intros tf i w b p Hb Hp. cbv zeta. rewrite run_optim_body_unfold.
    destruct (iteration_self tf i w)
      as [->|(loc & av & y & g & _ & _ & _ & ->)]; [left; auto|].
    right. exists loc, y.
    rewrite observe_X_history, observe_Y_history, observe_best_value,
      observe_best_params.
    unfold improves. rewrite Hb.
    destruct (better (maximize (self w)) y b) eqn:Hy;
      (repeat split; try reflexivity); [left|right; auto].
    repeat split. intros ->. unfold better, gtb in Hy.
    destruct (maximize (self w)); rewrite Hirr in Hy; discriminate.
  - intros max_iter tf w Hw. cbv zeta.
    apply (run_optim_invariant
             (fun o => best_value o <> None /\ best_params o <> None));
      [|exact Hw].
    intros tf' i w0 H0. rewrite run_optim_body_unfold.
    destruct (iteration_self tf' i w0)
      as [->|(loc & av & y & g & _ & _ & _ & ->)]; [exact H0|].
    rewrite observe_best_value, observe_best_params.
    destruct (improves (self w0) y); [split; discriminate|exact H0].
Qed.

(** ** Growth of the history and of the training set *)

Lemma extended_by_refl o : extended_by o o [] [].
Proof.
  unfold extended_by. rewrite !app_nil_r.
  repeat split; try reflexivity.
Qed.

Lemma extended_by_trans o1 o2 o3 Xs Ys Xs' Ys' :
  extended_by o1 o2 Xs Ys -> extended_by o2 o3 Xs' Ys' ->
  extended_by o1 o3 (Xs ++ Xs') (Ys ++ Ys').
Proof.
  intros (Hc & Hl & HX & HY & HXt & HYt) (Hc' & Hl' & HX' & HY' & HXt' & HYt').
  unfold extended_by.
  rewrite HX', HY', HXt', HYt', HX, HY, HXt, HYt, map_app, !length_app, !app_assoc.
  repeat split; try reflexivity; try lia.
  all: try (eapply same_configuration_trans; eassumption).
  all: destruct Hc as (?&?&?&?&?&?&?&?&?), Hc' as (?&?&?&?&?&?&?&?&?); congruence.
Qed.

Lemma observe_extended_by g loc y o :
  GPR_append_data (gpr o) (atleast_2d loc) y = Ok g ->
  extended_by o (observe g loc y o) [loc] [y].
Proof.
  intros Hg. apply GPR_append_data_ok in Hg. destruct Hg as (HX & HY & _).
  unfold extended_by.
  rewrite observe_X_history, observe_Y_history, observe_gpr, HX, HY.
  split; [apply observe_configuration|]. repeat split.
Qed.

Lemma run_optim_configuration max_iter terminate_function w :
  same_configuration (self w) (self (fst (run_optim max_iter terminate_function w))).
Proof.
  apply (run_optim_invariant (fun o => same_configuration (self w) o));
    [|apply same_configuration_refl].
  intros tf i w0 H. rewrite run_optim_body_unfold.
  destruct (iteration_self tf i w0) as [->|(loc & av & y & g & _ & _ & _ & ->)];
    [exact H|].
  eapply same_configuration_trans; [exact H|apply observe_configuration].
Qed.

(** ** Early termination *)

Lemma iteration_calls_grow terminate_function i w :
  exists new, calls (fst (iteration terminate_function i w)) = calls w ++ new.
Proof. split_iteration; eexists; reflexivity. Qed.

(** An iteration that ends without an exception has recorded its
    observation, in the surrogate first, and only then asked the
    predicate, with the histories that hold the observation. *)
Lemma iteration_ok terminate_function i w w' b :
  iteration terminate_function i w = (w', Ok b) ->
  exists loc y g,
    GPR_append_data (gpr (self w)) (atleast_2d loc) y = Ok g /\
    self w' = observe g loc y (self w) /\
    match terminate_function with
    | None => b = false
    | Some t =>
        t i (X_history (self w')) (Y_history (self w')) = Ok b /\
        called_before (Call_append_data (atleast_2d loc) y)
          (Call_terminate i (X_history (self w')) (Y_history (self w')))
          (calls w')
    end.
Proof.
  split_iteration; intros H; try discriminate.
  - injection H as <- Hb. exists loc, y, g. simpl.
    split; [exact Hgpr|]. split; [reflexivity|]. split; [exact Hb|].
    exists (calls w ++ [Call_acq_optimizer (gpr (self w)) i;
                        Call_objective
                          (objective_args (function_unpack (self w)) loc)]),
      l, [].
    rewrite <- !app_assoc. reflexivity.
  - injection H as <- Hb. exists loc, y, g. auto.
Qed.

Lemma run_optim_ok max_iter terminate_function w w' :
  run_optim max_iter terminate_function w = (w', Ok tt) ->
  exists w1,
    for_in (range max_iter) (run_optim_body terminate_function)
      (mkWorld (self w) (calls w ++ [Call_bar (tqdm max_iter)])) = (w1, Ok tt) /\
    self w' = self w1 /\ calls w' = calls w1 ++ [Call_bar close].
Proof.
  rewrite run_optim_unfold. cbv zeta.
  destruct (tqdm_bar (tqdm max_iter)) as [[]|e]; [|discriminate].
  destruct (for_in _ _ _) as [w1 r].
  destruct (tqdm_bar close) as [[]|e]; [|discriminate].
  intros H; injection H as <- ->. exists w1. auto.
Qed.

(** A run whose collaborators never raise completes. *)
Lemma run_optim_completes max_iter terminate_function w :
  (forall g a i, exists r, acq_optimizer (self w) g a i = Ok r) ->
  (forall a, exists y, objectivefunction (self w) a = Ok y) ->
  (forall k al (X : list (list num)), gpr_fit_ok k al X = true) ->
  (forall b : bar_call num, tqdm_bar b = Ok tt) ->
  (forall t, terminate_function = Some t ->
     forall i Xh Yh, exists b, t i Xh Yh = Ok b) ->
  snd (run_optim max_iter terminate_function w) = Ok tt.
Proof.
  intros Hacq Hobj Hfit Hbar Hterm. rewrite run_optim_unfold. cbv zeta.
  rewrite !Hbar.
  set (w0 := mkWorld _ _).
  set (body := run_optim_body terminate_function).
  assert (H : snd (for_in (range max_iter) body w0) = Ok tt).
  { destruct (Z.le_gt_cases max_iter 0) as [Hn|Hn].
    { rewrite range_neg by exact Hn. reflexivity. }
    replace (range max_iter) with (range (Z.of_nat (Z.to_nat max_iter)))
      by (f_equal; lia).
    refine (@for_in_rule _ body (Z.to_nat max_iter)
              (fun _ wk => same_configuration (self w) (self wk))
              (fun _ r => r = Ok tt) _ _ w0 _);
      [|reflexivity|apply same_configuration_refl].
    intros k wk _ Hcfg. unfold body. rewrite run_optim_body_unfold.
    pose proof (iteration_self terminate_function (Z.of_nat k) wk) as Hself.
    assert (Hok : exists b,
              snd (iteration terminate_function (Z.of_nat k) wk) = Ok b).
    { destruct Hcfg as (Hf & _ & _ & _ & _ & _ & _ & Ha & Hopt).
      unfold iteration. cbv zeta. rewrite Hf, Ha, Hopt.
      destruct (Hacq (gpr (self wk)) (acq (self w)) (Z.of_nat k)) as [[loc av] ->].
      destruct (Hobj (objective_args (function_unpack (self wk)) loc)) as [y ->].
      unfold GPR_append_data. rewrite Hfit.
      unfold bar_calls, notify. rewrite !Hbar.
      destruct terminate_function as [t|]; simpl; [|eauto].
      destruct (Hterm t eq_refl (Z.of_nat k)
                  (X_history (observe
                     {| X_train := X_train (gpr (self wk)) ++ atleast_2d loc;
                        Y_train := Y_train (gpr (self wk)) ++ [[y]];
                        gpr_alpha := gpr_alpha (gpr (self wk));
                        gpr_kernel := gpr_kernel (gpr (self wk)) |}
                     loc y (self wk)))
                  (Y_history (observe
                     {| X_train := X_train (gpr (self wk)) ++ atleast_2d loc;
                        Y_train := Y_train (gpr (self wk)) ++ [[y]];
                        gpr_alpha := gpr_alpha (gpr (self wk));
                        gpr_kernel := gpr_kernel (gpr (self wk)) |}
                     loc y (self wk)))) as [b Hb].
      exists b. exact Hb. }
    destruct (iteration terminate_function (Z.of_nat k) wk) as [w' r].
    simpl in Hself, Hok. destruct Hok as [b ->].
    destruct b; [reflexivity|].
    destruct Hself as [->|(loc & av & y & g & _ & _ & _ & ->)]; [exact Hcfg|].
    eapply same_configuration_trans; [exact Hcfg|apply observe_configuration]. }
  destruct (for_in (range max_iter) body w0) as [w1 r]. simpl in H. exact H.
Qed.

(** ** The surrogate follows the history *)

Lemma notify_bar_calls (bs : list (bar_call num)) l r :
  notify bs = (l, r) -> Forall (@is_bar_call num) l.
Proof.
  revert l r. unfold notify. induction bs as [|b bs IH]; intros l r H.
  - injection H as <- _. constructor.
  - fold (notify bs) in *. destruct (tqdm_bar b) as [[]|e].
    + destruct (notify bs) as [l' r']. injection H as <- _.
      constructor; [exact I|]. eapply IH. reflexivity.
    + injection H as <- _. repeat constructor.
Qed.

(** The calls of one iteration: the acquisition optimiser first, with the
    surrogate as it is when the iteration starts, and never again. *)
Lemma iteration_calls terminate_function i w :
  exists rest,
    calls (fst (iteration terminate_function i w)) =
      calls w ++ Call_acq_optimizer (gpr (self w)) i :: rest /\
    forall g it, ~ In (Call_acq_optimizer g it) rest.
Proof.
  split_iteration; eexists; (split; [reflexivity|]); intros g0 it Hin;
    simpl in Hin;
    repeat (destruct Hin as [Hin|Hin]; [discriminate Hin|]);
    try (destruct Hin; fail);
    try (apply in_app_or in Hin; destruct Hin as [Hin|Hin]);
    try (simpl in Hin; destruct Hin as [Hin|[]]; discriminate Hin);
    apply notify_bar_calls in Hbar; rewrite Forall_forall in Hbar;
    apply (Hbar _ Hin).
Qed.

Lemma observe_in_step g loc y o :
  GPR_append_data (gpr o) (atleast_2d loc) y = Ok g ->
  in_step o -> in_step (observe g loc y o).
Proof.
  intros Hg [HX HY]. apply GPR_append_data_ok in Hg.
  destruct Hg as (HX' & HY' & _). unfold in_step.
  rewrite observe_gpr, observe_X_history, observe_Y_history, HX', HY', HX, HY.
  destruct (observe_configuration g loc y o) as (_ & -> & _ & -> & _).
  rewrite map_app, <- !app_assoc. split; reflexivity.
Qed.

Lemma proposals_in_step_observe n0 g loc y o log :
  proposals_in_step n0 o log -> proposals_in_step n0 (observe g loc y o) log.
Proof.
  intros H g0 it Hin. destruct (H g0 it Hin) as (k & -> & HlX & HlY & HX & HY).
  exists k. rewrite observe_X_history, observe_Y_history, !length_app.
  destruct (observe_configuration g loc y o) as (_ & -> & _ & -> & _).
  rewrite !firstn_app.
  replace (n0 + k - length (X_history o))%nat with 0%nat by lia.
  replace (n0 + k - length (Y_history o))%nat with 0%nat by lia.
  simpl. rewrite !app_nil_r. repeat split; try assumption; lia.
Qed.

Lemma proposals_in_step_new n0 k o log rest :
  in_step o ->
  length (X_history o) = (n0 + k)%nat -> length (Y_history o) = (n0 + k)%nat ->
  (forall g it, ~ In (Call_acq_optimizer g it) rest) ->
  proposals_in_step n0 o log ->
  proposals_in_step n0 o (log ++ Call_acq_optimizer (gpr o) (Z.of_nat k) :: rest).
Proof.
  intros [HX HY] HlX HlY Hrest H g it Hin.
  apply in_app_or in Hin. destruct Hin as [Hin|[Hin|Hin]].
  - exact (H g it Hin).
  - injection Hin as <- <-. exists k.
    rewrite !firstn_all2 by lia. repeat split; try assumption; lia.
  - destruct (Hrest g it Hin).
Qed.

Lemma proposals_in_step_other n0 o (log rest : list (call num)) :
  (forall g it, ~ In (Call_acq_optimizer g it) rest) ->
  proposals_in_step n0 o log -> proposals_in_step n0 o (log ++ rest).
Proof.
  intros Hrest H g it Hin. apply in_app_or in Hin. destruct Hin as [Hin|Hin].
  - exact (H g it Hin).
  - destruct (Hrest g it Hin).
Qed.

Lemma run_optim_in_step max_iter terminate_function w n0 :
  in_step (self w) ->
  length (X_history (self w)) = n0 -> length (Y_history (self w)) = n0 ->
  proposals_in_step n0 (self w) (calls w) ->
  in_step (self (fst (run_optim max_iter terminate_function w))) /\
  proposals_in_step n0 (self (fst (run_optim max_iter terminate_function w)))
    (calls (fst (run_optim max_iter terminate_function w))).
Proof.
  intros Hstep HlX HlY Hprop.
  assert (Hbar : forall (b : bar_call num) g it,
            ~ In (Call_acq_optimizer g it) [Call_bar b])
    by (intros b g it [H|[]]; discriminate H).
  rewrite run_optim_unfold. cbv zeta.
  destruct (tqdm_bar (tqdm max_iter)) as [[]|e];
    [|simpl; split; [exact Hstep|apply proposals_in_step_other; auto]].
  set (w0 := mkWorld _ _).
  set (body := run_optim_body terminate_function).
  assert (H : in_step (self (fst (for_in (range max_iter) body w0))) /\
              proposals_in_step n0 (self (fst (for_in (range max_iter) body w0)))
                (calls (fst (for_in (range max_iter) body w0)))).
  { assert (H0 : in_step (self w0) /\ proposals_in_step n0 (self w0) (calls w0))
      by (split; [exact Hstep|apply proposals_in_step_other; auto]).
    destruct (Z.le_gt_cases max_iter 0) as [Hn|Hn].
    { rewrite range_neg by exact Hn. exact H0. }
    replace (range max_iter) with (range (Z.of_nat (Z.to_nat max_iter)))
      by (f_equal; lia).
    refine (@for_in_rule _ body (Z.to_nat max_iter)
              (fun k wk => in_step (self wk) /\
                 length (X_history (self wk)) = (n0 + k)%nat /\
                 length (Y_history (self wk)) = (n0 + k)%nat /\
                 proposals_in_step n0 (self wk) (calls wk))
              (fun wk _ => in_step (self wk) /\
                 proposals_in_step n0 (self wk) (calls wk)) _ _ w0 _).
    - intros k wk Hk (Hs & HX & HY & Hp).
      unfold body. rewrite run_optim_body_unfold.
      destruct (iteration_calls terminate_function (Z.of_nat k) wk)
        as (rest & Hcalls & Hrest).
      pose proof (iteration_self terminate_function (Z.of_nat k) wk) as Hself.
      pose proof (@iteration_continue terminate_function (Z.of_nat k) wk) as Hcont.
      destruct (iteration terminate_function (Z.of_nat k) wk) as [w' r].
      simpl in Hcalls, Hself.
      assert (Hnew : proposals_in_step n0 (self wk) (calls w'))
        by (rewrite Hcalls; now apply proposals_in_step_new).
      assert (Hrec : forall loc y g,
                GPR_append_data (gpr (self wk)) (atleast_2d loc) y = Ok g ->
                self w' = observe g loc y (self wk) ->
                in_step (self w') /\
                length (X_history (self w')) = (n0 + S k)%nat /\
                length (Y_history (self w')) = (n0 + S k)%nat /\
                proposals_in_step n0 (self w') (calls w')).
      { intros loc y g Hg ->.
        rewrite observe_X_history, observe_Y_history, !length_app. simpl.
        split; [now apply observe_in_step|].
        split; [lia|]. split; [lia|]. now apply proposals_in_step_observe. }
      destruct r as [[|]|e].
      + destruct (Hcont w' true eq_refl) as (loc & av & y & g & _ & _ & Hg & Hw').
        destruct (Hrec loc y g Hg Hw') as (H1 & _ & _ & H2). auto.
      + destruct (Hcont w' false eq_refl) as (loc & av & y & g & _ & _ & Hg & Hw').
        exact (Hrec loc y g Hg Hw').
      + destruct Hself as [Hs'|(loc & av & y & g & _ & _ & Hg & Hw')].
        * rewrite Hs'. auto.
        * destruct (Hrec loc y g Hg Hw') as (H1 & _ & _ & H2). auto.
    - intros wk (Hs & _ & _ & Hp). auto.
    - destruct H0 as [H1 H2]. unfold w0 in *. simpl in *.
      rewrite !Nat.add_0_r. auto. }
  destruct (for_in (range max_iter) body w0) as [w1 r]. simpl in H.
  destruct H as [H1 H2].
  destruct (tqdm_bar close); simpl;
    (split; [exact H1|apply proposals_in_step_other; auto]).
Qed.

(** The calls of a construction: the objective on the initial locations and
    then, at most once, the fit of the surrogate. *)
Lemma initialY_loop_spec (f : objective_fn num) unpack rows iniY log :
  exists m,
    fst (initialY_loop f unpack rows iniY log) =
      log ++ map (fun x => Call_objective (objective_args unpack x)) (firstn m rows) /\
    match snd (initialY_loop f unpack rows iniY log) with
    | Ok ys' =>
        m = length rows /\
        exists ys, ys' = iniY ++ ys /\
                   Forall2 (fun x y => f (objective_args unpack x) = Ok y) rows ys
    | Raise _ => True
    end.
Proof.
  revert iniY log. induction rows as [|x rows IH]; intros iniY log.
  - exists 0%nat. simpl. rewrite app_nil_r. split; [reflexivity|].
    split; [reflexivity|]. exists []. rewrite app_nil_r. auto.
  - cbn [initialY_loop]. unfold bind.
    assert (E : (if unpack
                 then called (Call_objective (Positional x)) (f (Positional x))
                 else called (Call_objective (Packed (atleast_2d x)))
                        (f (Packed (atleast_2d x)))) log
                = (log ++ [Call_objective (objective_args unpack x)],
                   f (objective_args unpack x)))
      by (destruct unpack; reflexivity).
    rewrite E. destruct (f (objective_args unpack x)) as [y|e] eqn:Hy.
    + destruct (IH (iniY ++ [y]) (log ++ [Call_objective (objective_args unpack x)]))
        as (m & Hlog & Hres).
      exists (S m). rewrite Hlog. simpl. rewrite <- app_assoc.
      split; [reflexivity|].
      destruct (snd (initialY_loop f unpack rows (iniY ++ [y]) _)) as [ys'|e];
        [|exact I].
      destruct Hres as (-> & ys & -> & HF). split; [reflexivity|].
      exists (y :: ys). rewrite <- app_assoc. split; [reflexivity|].
      constructor; assumption.
    + exists 1%nat. simpl. split; [reflexivity|exact I].
Qed.

Lemma calculate_initialY_calls (f : objective_fn num) X unpack initial_Y0 log :
  exists new,
    fst (__calculate_initialY f X unpack initial_Y0 log) = log ++ new /\
    forall c, In c new -> exists x, c = Call_objective (objective_args unpack x).
Proof.
  unfold __calculate_initialY. destruct initial_Y0 as [Y|].
  - exists []. rewrite app_nil_r. split; [|intros c []].
    destruct (negb _); [reflexivity|].
    unfold bind, lift, ret. destruct (transform_data Y); reflexivity.
  - destruct (initialY_loop_spec f unpack X [] log) as (m & Hlog & _).
    exists (map (fun x => Call_objective (objective_args unpack x)) (firstn m X)).
    split.
    + unfold bind, ret. rewrite <- Hlog.
      destruct (initialY_loop f unpack X [] log) as [log' [ys|e]]; reflexivity.
    + intros c Hc. apply in_map_iff in Hc. destruct Hc as (x & <- & _). eauto.
Qed.

Lemma init_calls (f : objective_fn num) initial_input (acq0 : acq_fn) acq_optim
    initial_Y0 kernel0 alpha0 maximize0 unpack log :
  exists new,
    fst (__init__ f initial_input acq0 acq_optim initial_Y0 kernel0 alpha0
           maximize0 unpack log) = log ++ new /\
    forall c, In c new ->
      (exists x, c = Call_objective (objective_args unpack x)) \/
      (exists X Y, c = Call_GPR X Y).
Proof.
  unfold __init__, bind, lift, called, ret.
  destruct (transform_data initial_input) as [X|e];
    [|exists []; rewrite app_nil_r; split; [reflexivity|intros c []]].
  destruct (calculate_initialY_calls f X unpack initial_Y0 log) as (new & Hlog & Hnew).
  destruct (__calculate_initialY f X unpack initial_Y0 log) as [log1 [Y|e]];
    simpl in Hlog; subst log1;
    [|exists new; split; [reflexivity|auto]].
  destruct (data_checker X Y) as [[]|e]; [|exists new; split; [reflexivity|auto]].
  exists (new ++ [Call_GPR X Y]). split.
  - destruct (GPR_new _ _ _ _); simpl; rewrite <- app_assoc; reflexivity.
  - intros c Hc. apply in_app_or in Hc. destruct Hc as [Hc|[<-|[]]]; eauto.
Qed.

(** C7: on an object built by the constructor and then run, the surrogate
    holds the initial batch followed by the history, in this order, when
    the constructor returns and when the run ends; and every surrogate that
    the run handed to the acquisition optimiser, at an iteration [k], held
    the initial batch followed by the observations of the iterations before
    [k], all of them and no other. *)
Theorem surrogate_trains_on_batch_then_history
    (f : objective_fn num) initial_input (acq0 : acq_fn) acq_optim initial_Y0
    kernel0 alpha0 maximize0 unpack log0 o max_iter terminate_function w' r :
  __init__ f initial_input acq0 acq_optim initial_Y0 kernel0 alpha0 maximize0
    unpack [] = (log0, Ok o) ->
  run_optim max_iter terminate_function (mkWorld o log0) = (w', r) ->
  in_step o /\ in_step (self w') /\
  initial_X (self w') = initial_X o /\ initial_Y (self w') = initial_Y o /\
  forall g it, In (Call_acq_optimizer g it) (calls w') ->
    exists k,
      it = Z.of_nat k /\ (k <= length (X_history (self w')))%nat /\
      X_train g = initial_X o ++ firstn k (X_history (self w')) /\
      Y_train g = rows_of (initial_Y o) ++
                  map (fun y => [y]) (firstn k (Y_history (self w'))).
Proof.
  intros Hinit Hrun.
  destruct (init_calls f initial_input acq0 acq_optim initial_Y0 kernel0 alpha0
              maximize0 unpack []) as (new & Hlog & Hnew).
  rewrite Hinit in Hlog. simpl in Hlog. subst log0.
  apply init_ok in Hinit.
  destruct Hinit as (HX & HY & _ & _ & HXt & HYt & _).
  assert (Hstep : in_step o)
    by (unfold in_step; rewrite HX, HY, HXt, HYt, !app_nil_r; auto).
  assert (Hnone : proposals_in_step 0 o new).
  { intros g it Hin. destruct (Hnew _ Hin) as [[a Ha]|(X & Y & Ha)]; discriminate Ha. }
  destruct (@run_optim_in_step max_iter terminate_function (mkWorld o new) 0%nat)
    as [H1 H2]; simpl; try assumption; try (rewrite ?HX, ?HY; reflexivity).
  destruct (run_optim_configuration max_iter terminate_function (mkWorld o new))
    as (_ & HiX & _ & HiY & _).
  rewrite Hrun in *. simpl in *.
  split; [exact Hstep|]. split; [exact H1|]. split; [exact HiX|].
  split; [exact HiY|].
  intros g it Hin. destruct (H2 g it Hin) as (k & -> & Hk & _ & HgX & HgY).
  exists k. simpl in *. rewrite HiX, HiY in *. auto.
Qed.

(** ** Exceptions *)

Lemma notify_raise (bs : list (bar_call num)) l e :
  notify bs = (l, Some e) ->
  exists l' b, l = l' ++ [Call_bar b] /\ tqdm_bar b = Raise e /\
               Forall (@is_bar_call num) l'.
Proof.
  revert l. unfold notify. induction bs as [|b bs IH]; intros l H.
  - discriminate H.
  - fold (notify bs) in *. destruct (tqdm_bar b) as [[]|e0] eqn:Hb.
    + destruct (notify bs) as [l0 r0]. injection H as <- ->.
      destruct (IH l0 eq_refl) as (l' & b' & -> & Hb' & Hl').
      exists (Call_bar b :: l'), b'. split; [reflexivity|].
      split; [exact Hb'|]. constructor; [exact I|exact Hl'].
    + injection H as <- <-. exists [], b. repeat split; auto.
Qed.

Lemma observe_recorded g loc y o : recorded o (observe g loc y o) loc y.
Proof.
  unfold recorded.
  rewrite observe_X_history, observe_Y_history, observe_best_value,
    observe_best_params. auto.
Qed.

(** An iteration that raises: the last call of its log is the one that
    raised, and the object kept nothing of the iteration when that call
    came before the recording, everything when it came after. *)
Lemma iteration_raise terminate_function i w w' e :
  iteration terminate_function i w = (w', Raise e) ->
  exists new c,
    calls w' = calls w ++ new ++ [c] /\
    raised_by (self w) terminate_function c e /\
    (forall it Xh Yh, ~ In (Call_terminate it Xh Yh) new) /\
    match c with
    | Call_acq_optimizer _ _ | Call_objective _ | Call_append_data _ _ =>
        self w' = self w
    | Call_bar _ | Call_terminate _ _ _ =>
        exists loc y g,
          GPR_append_data (gpr (self w)) (atleast_2d loc) y = Ok g /\
          self w' = observe g loc y (self w)
    | Call_GPR _ _ => False
    end.
Proof.
  assert (Hno : forall (l : list (call num)) c1 c2 c3,
            Forall (@is_bar_call num) l ->
            (forall it Xh Yh, c1 <> Call_terminate it Xh Yh) ->
            (forall it Xh Yh, c2 <> Call_terminate it Xh Yh) ->
            (forall it Xh Yh, c3 <> Call_terminate it Xh Yh) ->
            forall it Xh Yh, ~ In (Call_terminate it Xh Yh) ([c1; c2; c3] ++ l)).
  { intros l c1 c2 c3 Hl H1 H2 H3 it Xh Yh [H|[H|[H|H]]];
      [exact (H1 _ _ _ H)|exact (H2 _ _ _ H)|exact (H3 _ _ _ H)|].
    rewrite Forall_forall in Hl. exact (Hl _ H). }
  split_iteration; intros H; try discriminate H; injection H as <- He; subst.
  - apply notify_raise in Hbar. destruct Hbar as (l' & b & -> & Hb & Hl').
    eexists (_ :: _ :: _ :: l'), (Call_bar b). simpl.
    split; [rewrite <- ?app_assoc; reflexivity|]. split; [exact Hb|].
    split; [|exists loc, y, g; auto].
    apply (Hno l'); try assumption; intros; discriminate.
  - pose proof (notify_bar_calls _ Hbar) as Hl.
    eexists (_ :: _ :: _ :: l), (Call_terminate _ _ _). simpl.
    split; [rewrite <- ?app_assoc; reflexivity|]. split; [eauto|].
    split; [|exists loc, y, g; auto].
    apply (Hno l); try assumption; intros; discriminate.
  - eexists [_; _], _. simpl. split; [reflexivity|]. split; [exact Hgpr|].
    split; [intros ? ? ? [H|[H|[]]]; discriminate H|reflexivity].
  - eexists [_], _. simpl. split; [reflexivity|]. split; [exact Hobj|].
    split; [intros ? ? ? [H|[]]; discriminate H|reflexivity].
  - eexists [], _. simpl. split; [reflexivity|]. split; [exact Hacq|].
    split; [intros ? ? ? []|reflexivity].
Qed.



(** ** Validation of the initial values *)

Lemma transform_data_shape0 (Y : ndarray num) rows :
  transform_data Y = Ok rows -> length rows = shape0 Y.
Proof.
  destruct Y as [ys|rs|rank lead]; simpl.
  - intros H; injection H as <-. apply length_map.
  - destruct (rectangular rs); [|discriminate]. intros H; injection H as <-.
    reflexivity.
  - discriminate.
Qed.

(** C4: for initial locations that are a well-formed array, supplied
    initial values whose leading dimension differs from that of the
    locations make the constructor raise [ValueError] with nothing called,
    neither the objective nor the fit of the surrogate, and no object
    returned; with the same leading dimension the check passes, and for
    values that are a well-formed array the constructor returns the object
    as soon as the surrogate's fit succeeds. *)
Theorem mismatched_initial_values_are_rejected
    (f : objective_fn num) initial_input (acq0 : acq_fn) acq_optim Y kernel0 alpha0
    maximize0 unpack log X :
  transform_data initial_input = Ok X ->
  let k := match kernel0 with None => GaussianRBFKernel 1 1 | Some k => k end in
  let built := __init__ f initial_input acq0 acq_optim (Some Y) kernel0 alpha0
                 maximize0 unpack log in
  (shape0 Y <> shape0 initial_input ->
   built = (log, Raise (ValueError
                          "Y must be the same size as the number of data in X."))) /\
  (shape0 Y = shape0 initial_input ->
   forall rows, transform_data Y = Ok rows -> gpr_fit_ok k alpha0 X = true ->
   exists o, built = (log ++ [Call_GPR X (Arr2 rows)], Ok o) /\
             initial_X o = X /\ initial_Y o = Arr2 rows /\
             X_train (gpr o) = X /\ Y_train (gpr o) = rows).
Proof.
  intros HX. cbv zeta. rewrite <- (transform_data_shape0 _ HX).
  unfold __init__, bind, lift. rewrite HX.
  unfold __calculate_initialY. split.
  - intros Hne. apply Nat.eqb_neq in Hne. rewrite Hne. reflexivity.
  - intros Heq rows Hrows Hfit. apply Nat.eqb_eq in Heq. rewrite Heq. simpl.
    unfold bind, lift, ret. rewrite Hrows.
    unfold data_checker. simpl.
    rewrite (transform_data_shape0 _ Hrows).
    apply Nat.eqb_eq in Heq. rewrite <- Heq, Nat.eqb_refl.
    unfold called, GPR_new. rewrite Hfit.
    eexists. split; [reflexivity|]. simpl. auto.
Qed.

(** ** The calling convention *)

Lemma iteration_history_evaluates terminate_function i w :
  history_evaluates (self w) ->
  history_evaluates (self (fst (run_optim_body terminate_function i w))).
Proof.
  intros H. rewrite run_optim_body_unfold.
  destruct (iteration_self terminate_function i w)
    as [->|(loc & av & y & g & _ & Hobj & _ & ->)]; [exact H|].
  unfold history_evaluates in *.
  rewrite observe_X_history, observe_Y_history.
  destruct (observe_configuration g loc y (self w)) as (-> & _ & -> & _).
  apply Forall2_app; [exact H|]. constructor; [exact Hobj|constructor].
Qed.

Section Ordered.

(** The comparison is a strict order, as [<] is on numbers. *)
Hypothesis ltb_irrefl : forall a : num, ltb a a = false.
Hypothesis ltb_trans :
  forall a b c : num, ltb a b = true -> ltb b c = true -> ltb a c = true.

Lemma better_irrefl mx (a : num) : better mx a a = false.
Proof. unfold better, gtb. destruct mx; apply ltb_irrefl. Qed.

Lemma better_trans mx (a b c : num) :
  better mx a b = true -> better mx b c = true -> better mx a c = true.
Proof. unfold better, gtb. destruct mx; eauto. Qed.

Lemma observe_best_unbeaten g loc y o :
  best_recorded o -> best_unbeaten o -> best_unbeaten (observe g loc y o).
Proof.
  intros [_ Hrec] Hun. unfold best_unbeaten in *.
  rewrite observe_best_value, observe_Y_history.
  replace (maximize (observe g loc y o)) with (maximize o)
    by (symmetry; apply (observe_configuration g loc y o)).
  unfold improves. destruct (best_value o) as [b|].
  - destruct (better (maximize o) y b) eqn:Hy; intros w Hw;
      apply in_app_or in Hw; destruct Hw as [Hw|[<-|[]]]; auto.
    + destruct (better (maximize o) w y) eqn:Hwy; [|reflexivity].
      rewrite <- (Hun w Hw). symmetry. eapply better_trans; eassumption.
    + apply better_irrefl.
  - destruct Hrec as [_ ->]. intros w [<-|[]]. apply better_irrefl.
Qed.

Lemma reachable_best_unbeaten o : reachable o -> best_unbeaten o.
Proof.
  intros H. cut (best_recorded o /\ best_unbeaten o); [tauto|].
  induction H as [f ii a ao iy k al mx un log log' o Hinit
                 | o max_iter tf log w' r Hr IH Hrun].
  - split; [eapply reachable_best_recorded, reach_init, Hinit|].
    apply init_ok in Hinit. destruct Hinit as (_ & _ & Hv & _).
    unfold best_unbeaten. now rewrite Hv.
  - replace w' with (fst (run_optim max_iter tf (mkWorld o log)))
      by (rewrite Hrun; reflexivity).
    apply (run_optim_invariant (fun o => best_recorded o /\ best_unbeaten o));
      [|exact IH].
    intros tf' i w [H1 H2]. rewrite run_optim_body_unfold.
    destruct (iteration_self tf' i w)
      as [->|(loc & av & y & g & _ & _ & _ & ->)]; [auto|].
    split; [now apply observe_best_recorded|now apply observe_best_unbeaten].
Qed.

(** C1, as amended: on every object built by the constructor and driven by
    any number of runs, the best value is extremal (minimal when [maximize]
    is false, maximal when true) among the values recorded in the history,
    and the best location is the location recorded with it; the initial
    batch takes no part, and the pair is unset exactly while the history is
    empty. *)
Theorem best_is_extremum_of_history o :
  reachable o ->
  match best_value o with
  | None => Y_history o = [] /\ best_params o = None
  | Some v =>
      extremum_of (maximize o) (Y_history o) v /\
      exists p j, best_params o = Some p /\
                  nth_error (X_history o) j = Some p /\
                  nth_error (Y_history o) j = Some v
  end.
Proof.
  intros H. pose proof (reachable_best_recorded H) as [_ Hrec].
  pose proof (reachable_best_unbeaten H) as Hun. unfold best_unbeaten in Hun.
  destruct (best_value o) as [v|]; [|tauto].
  split; [|exact Hrec]. split; [|exact Hun].
  destruct Hrec as (p & j & _ & _ & Hj). eapply nth_error_In, Hj.
Qed.

Lemma not_worse_refl o : not_worse o o.
Proof. intros b Hb. exists b. auto. Qed.

Lemma not_worse_observe g loc y o : not_worse o (observe g loc y o).
Proof.
  intros b Hb. rewrite observe_best_value. unfold improves. rewrite Hb.
  destruct (better (maximize o) y b) eqn:Hy; eauto.
Qed.

Lemma not_worse_trans o1 o2 o3 :
  maximize o2 = maximize o1 ->
  not_worse o1 o2 -> not_worse o2 o3 -> not_worse o1 o3.
Proof.
  intros Hmx H12 H23 b Hb.
  destruct (H12 b Hb) as (b2 & Hb2 & H2).
  destruct (H23 b2 Hb2) as (b3 & Hb3 & H3).
  exists b3. split; [exact Hb3|]. rewrite Hmx in H3.
  destruct H2 as [->|H2]; [exact H3|].
  destruct H3 as [->|H3]; [auto|]. right. eapply better_trans; eassumption.
Qed.


End Ordered.

(** C10: whenever the best value is set, the best location is set with it
    and the two are one recorded observation: an index [j] holds the best
    location in [param_history] and the best value in [value_history]. *)
Theorem best_pair_is_recorded_observation o :
  reachable o ->
  forall v, best_value o = Some v ->
  exists p j Xh Yh,
    param_history o = Arr2 Xh /\ value_history o = Arr1 Yh /\
    best_params o = Some p /\
    nth_error Xh j = Some p /\ nth_error Yh j = Some v.
Proof.
  intros H v Hv. destruct (reachable_best_recorded H) as [_ Hrec].
  rewrite Hv in Hrec. destruct Hrec as (p & j & Hp & HX & HY).
  exists p, j, (X_history o), (Y_history o). auto.
Qed.

(** * Further properties of the constructor and of the loop *)

(** ** Edges of construction and of the horizon *)

(** X1: a horizon that is zero or negative runs no iteration.  The object is
    left as it is, only the bar is called, and the run returns normally
    when the bar does not raise. *)
Theorem no_iteration_for_nonpositive_horizon max_iter terminate_function w :
  max_iter <= 0 ->
  let r := run_optim max_iter terminate_function w in
  self (fst r) = self w /\
  (exists new, calls (fst r) = calls w ++ new /\
               Forall (@is_bar_call num) new) /\
  ((forall b : bar_call num, tqdm_bar b = Ok tt) ->
   r = (mkWorld (self w)
          (calls w ++ [Call_bar (tqdm max_iter); Call_bar close]), Ok tt)).
Proof.
  intros Hn. cbv zeta. rewrite run_optim_unfold. cbv zeta.
  rewrite (range_neg Hn). simpl.
  split; [destruct (tqdm_bar (tqdm max_iter)) as [[]|e];
          [destruct (tqdm_bar close)|]; reflexivity|].
  split.
  - destruct (tqdm_bar (tqdm max_iter)) as [[]|e];
      [destruct (tqdm_bar close)|]; simpl;
      eexists; (split; [try rewrite <- app_assoc; reflexivity|]);
      repeat constructor.
  - intros Hbar. rewrite !Hbar. simpl. rewrite <- app_assoc. reflexivity.
Qed.

Lemma initialY_loop_first_failure (f : objective_fn num) unpack rows iniY log m x e :
  nth_error rows m = Some x ->
  (forall k x', (k < m)%nat -> nth_error rows k = Some x' ->
                exists y, f (objective_args unpack x') = Ok y) ->
  f (objective_args unpack x) = Raise e ->
  initialY_loop f unpack rows iniY log
  = (log ++ map (fun x => Call_objective (objective_args unpack x))
              (firstn (S m) rows), Raise e).
Proof.
  revert iniY log m. induction rows as [|x0 rows IH]; intros iniY log m Hm Hbefore He.
  - destruct m; discriminate Hm.
  - cbn [initialY_loop]. unfold bind.
    assert (E : (if unpack
                 then called (Call_objective (Positional x0)) (f (Positional x0))
                 else called (Call_objective (Packed (atleast_2d x0)))
                        (f (Packed (atleast_2d x0)))) log
                = (log ++ [Call_objective (objective_args unpack x0)],
                   f (objective_args unpack x0)))
      by (destruct unpack; reflexivity).
    rewrite E. destruct m as [|m].
    + injection Hm as ->. rewrite He. reflexivity.
    + destruct (Hbefore 0%nat x0 ltac:(lia) eq_refl) as [y ->].
      rewrite (IH (iniY ++ [y]) _ m Hm); [|
        intros k x' Hk Hx'; apply (Hbefore (S k) x'); [lia|exact Hx']|exact He].
      rewrite <- app_assoc. reflexivity.
Qed.

(** X3: with no initial values supplied, the first initial location at
    which the objective raises ends the construction with that exception:
    the objective was called on the locations up to that one and on no
    later one, the surrogate was not fitted and no object is returned. *)
Theorem objective_failure_aborts_construction
    (f : objective_fn num) initial_input (acq0 : acq_fn) acq_optim kernel0 alpha0
    maximize0 unpack log X m x e :
  transform_data initial_input = Ok X ->
  nth_error X m = Some x ->
  (forall k x', (k < m)%nat -> nth_error X k = Some x' ->
                exists y, f (objective_args unpack x') = Ok y) ->
  f (objective_args unpack x) = Raise e ->
  __init__ f initial_input acq0 acq_optim None kernel0 alpha0 maximize0 unpack log
  = (log ++ map (fun x => Call_objective (objective_args unpack x))
              (firstn (S m) X), Raise e).
Proof.
  intros HX Hm Hbefore He.
  unfold __init__, __calculate_initialY, bind, lift. rewrite HX.
  rewrite (initialY_loop_first_failure f unpack X [] log Hm Hbefore He).
  reflexivity.
Qed.

(** X4: on every object built by the constructor and driven by runs, the
    two histories have the same length, which is the count of trials, so
    that [param_history] and [value_history] pair up index by index. *)
Theorem histories_are_parallel o :
  reachable o ->
  length (X_history o) = length (Y_history o) /\
  n_trial o = Z.of_nat (length (X_history o)) /\
  shape0 (param_history o) = shape0 (value_history o).
Proof.
  intros H. destruct (reachable_best_recorded H) as [Hlen _].
  unfold n_trial, param_history, value_history. simpl.
  rewrite Hlen. auto.
Qed.

(** ** The calls of a run *)

Lemma flat_map_bars {B} (f : call num -> list B) l :
  (forall b, f (Call_bar b) = []) ->
  Forall (@is_bar_call num) l -> flat_map f l = [].
Proof.
  intros Hf Hl. induction Hl as [|c l Hc _ IH]; [reflexivity|].
  simpl. rewrite IH. destruct c; try destruct Hc. rewrite Hf. reflexivity.
Qed.

Ltac project_log Hl :=
  unfold proposals, evaluations, updates, questions; simpl;
  rewrite ?flat_map_app; simpl;
  rewrite ?(flat_map_bars _ (fun _ => eq_refl) Hl); simpl.

(** The calls of one iteration, kind by kind: one proposal, with the
    surrogate as the iteration found it; then either one evaluation and one
    update, for the observation that was recorded, or an exception with at
    most one evaluation and one update attempted and nothing recorded. *)
Lemma iteration_trace terminate_function i w :
  exists new,
    calls (fst (iteration terminate_function i w)) = calls w ++ new /\
    proposals new = [(gpr (self w), i)] /\
    ((exists loc av y g,
        acq_optimizer (self w) (gpr (self w)) (acq (self w)) i = Ok (loc, av) /\
        objectivefunction (self w)
          (objective_args (function_unpack (self w)) loc) = Ok y /\
        GPR_append_data (gpr (self w)) (atleast_2d loc) y = Ok g /\
        self (fst (iteration terminate_function i w)) = observe g loc y (self w) /\
        evaluations new = [objective_args (function_unpack (self w)) loc] /\
        updates new = [(atleast_2d loc, y)]) \/
     (self (fst (iteration terminate_function i w)) = self w /\
      (exists e, snd (iteration terminate_function i w) = Raise e) /\
      (length (updates new) <= length (evaluations new) <= 1)%nat)).
Proof.
  split_iteration;
    try (pose proof (notify_bar_calls _ Hbar) as Hl);
    (eexists; split; [reflexivity|]).
  1-3: project_log Hl; (split; [reflexivity|]); left; exists loc, av, y, g;
    repeat (split; [first [reflexivity|assumption]|]); reflexivity.
  - split; [reflexivity|]. right. simpl. split; [reflexivity|]. split; [eauto|lia].
  - split; [reflexivity|]. right. simpl. split; [reflexivity|]. split; [eauto|lia].
  - split; [reflexivity|]. right. simpl. split; [reflexivity|]. split; [eauto|lia].
Qed.

Lemma surrogate_after_nil o : surrogate_after o [] [] = gpr o.
Proof.
  unfold surrogate_after. simpl. rewrite !app_nil_r. destruct (gpr o); reflexivity.
Qed.

Lemma surrogate_after_append o Xs Ys (loc : list num) (y : num) g :
  GPR_append_data (surrogate_after o Xs Ys) (atleast_2d loc) y = Ok g ->
  g = surrogate_after o (Xs ++ [loc]) (Ys ++ [y]).
Proof.
  unfold GPR_append_data. destruct (gpr_fit_ok _ _ _); [|discriminate].
  intros H; injection H as <-. unfold surrogate_after. simpl.
  rewrite map_app, <- !app_assoc. reflexivity.
Qed.

Lemma firstn_app_le {A} (l : list A) a k :
  (k <= length l)%nat -> firstn k (l ++ a) = firstn k l.
Proof.
  intros H. rewrite firstn_app.
  replace (k - length l)%nat with 0%nat by lia. simpl. apply app_nil_r.
Qed.

Lemma expected_proposals_stable o m Xs Ys (a : list (list num)) (b : list num) :
  (m <= S (length Xs))%nat -> length Xs = length Ys ->
  expected_proposals o m (Xs ++ a) (Ys ++ b) = expected_proposals o m Xs Ys.
Proof.
  intros Hm Hlen. unfold expected_proposals. apply map_ext_in.
  intros k Hk. apply in_seq in Hk.
  rewrite !firstn_app_le by lia. reflexivity.
Qed.

Lemma expected_proposals_S o k Xs Ys :
  length Xs = k -> length Ys = k ->
  expected_proposals o (S k) Xs Ys
  = expected_proposals o k Xs Ys ++ [(surrogate_after o Xs Ys, Z.of_nat k)].
Proof.
  intros HX HY. unfold expected_proposals.
  rewrite seq_S, map_app. simpl. rewrite !firstn_all2 by lia. reflexivity.
Qed.

Lemma follows_recurrence_snoc o Xs Ys (loc : list num) (y av : num) :
  length Xs = length Ys ->
  follows_recurrence o Xs Ys ->
  acq_optimizer o (surrogate_after o Xs Ys) (acq o) (Z.of_nat (length Xs))
  = Ok (loc, av) ->
  objectivefunction o (objective_args (function_unpack o) loc) = Ok y ->
  follows_recurrence o (Xs ++ [loc]) (Ys ++ [y]).
Proof.
  intros Hlen Hrec Hacq Hobj k loc0 y0 HX HY.
  destruct (Nat.lt_ge_cases k (length Xs)) as [Hk|Hk].
  - rewrite nth_error_app1 in HX, HY by lia.
    rewrite !firstn_app_le by lia. exact (Hrec k loc0 y0 HX HY).
  - assert (Hk' : k = length Xs).
    { assert (Hlt : (k < length (Xs ++ [loc]))%nat)
        by (apply nth_error_Some; congruence).
      rewrite length_app in Hlt. simpl in Hlt. lia. }
    subst k. rewrite nth_error_app2, Nat.sub_diag in HX by lia.
    rewrite Hlen in HY. rewrite nth_error_app2, Nat.sub_diag in HY by lia.
    injection HX as <-. injection HY as <-.
    assert (E1 : firstn (length Xs) (Xs ++ [loc]) = Xs)
      by (rewrite firstn_app_le by lia; apply firstn_all).
    assert (E2 : firstn (length Xs) (Ys ++ [y]) = Ys)
      by (rewrite Hlen, firstn_app_le by lia; apply firstn_all).
    rewrite E1, E2. eauto.
Qed.

Lemma combine_snoc {A B} (l : list A) (l' : list B) a b :
  length l = length l' ->
  combine (l ++ [a]) (l' ++ [b]) = combine l l' ++ [(a, b)].
Proof.
  revert l'. induction l as [|x l IH]; intros [|x' l'] H; try discriminate H.
  - reflexivity.
  - simpl. rewrite IH by (simpl in H; lia). reflexivity.
Qed.

Lemma trace_invariant_done w max_iter k wk Xs Ys new (r : result unit) :
  trace_invariant w k wk Xs Ys new ->
  Z.of_nat k <= Z.max 0 max_iter ->
  run_trace w max_iter (wk, r) Xs Ys new k.
Proof.
  intros (Hext & Hg & Hlen & Hcalls & Hprop & Hrec & Hev & Hup) Hk.
  unfold run_trace. simpl.
  split; [exact Hext|]. split; [exact Hg|]. split; [exact Hcalls|].
  split; [lia|]. split; [exact Hk|]. split; [intros _; lia|].
  split; [exact Hprop|]. split; [exact Hrec|].
  split; exists []; rewrite app_nil_r; (split; [assumption|simpl; lia]).
Qed.

Lemma trace_invariant_step w k wk w' Xs Ys new inew loc av y g :
  trace_invariant w k wk Xs Ys new ->
  calls w' = calls wk ++ inew ->
  proposals inew = [(gpr (self wk), Z.of_nat k)] ->
  acq_optimizer (self wk) (gpr (self wk)) (acq (self wk)) (Z.of_nat k)
  = Ok (loc, av) ->
  objectivefunction (self wk) (objective_args (function_unpack (self wk)) loc)
  = Ok y ->
  GPR_append_data (gpr (self wk)) (atleast_2d loc) y = Ok g ->
  self w' = observe g loc y (self wk) ->
  evaluations inew = [objective_args (function_unpack (self wk)) loc] ->
  updates inew = [(atleast_2d loc, y)] ->
  trace_invariant w (S k) w' (Xs ++ [loc]) (Ys ++ [y]) (new ++ inew).
Proof.
  intros (Hext & Hg & Hlen & Hcalls & Hprop & Hrec & Hev & Hup)
    Hcalls' Hp Hacq Hobj Hgpr Hself He Hu.
  pose proof Hext as (Hcfg & HlenXY & _).
  destruct Hcfg as (Hf & _ & Hun & _ & _ & _ & _ & Ha & Hopt).
  assert (HlX : length Xs = k) by lia.
  unfold trace_invariant. cbv zeta.
  split.
  { rewrite Hself. eapply extended_by_trans; [exact Hext|].
    now apply observe_extended_by. }
  split.
  { rewrite Hself, observe_gpr. apply surrogate_after_append.
    rewrite <- Hg. exact Hgpr. }
  split; [rewrite length_app; simpl; lia|].
  split; [rewrite Hcalls', Hcalls, <- app_assoc; reflexivity|].
  split.
  { unfold proposals in *. rewrite flat_map_app. fold (proposals new).
    unfold proposals at 1. rewrite Hprop, Hp, Hg.
    rewrite expected_proposals_stable by lia.
    symmetry. apply expected_proposals_S; assumption. }
  split.
  { apply follows_recurrence_snoc with (av := av); [lia|exact Hrec| |].
    - rewrite HlX, <- Hg, <- Hopt, <- Ha. exact Hacq.
    - rewrite <- Hf, <- Hun. exact Hobj. }
  split.
  { unfold evaluations in *. rewrite flat_map_app, Hev, He, map_app, Hun.
    reflexivity. }
  unfold updates in *. rewrite flat_map_app, Hup, Hu, map_app. simpl.
  symmetry. apply combine_snoc. rewrite length_map. lia.
Qed.

(** A run, whatever its outcome, in terms of what it recorded. *)
Lemma run_optim_trace max_iter terminate_function w :
  exists Xs Ys new m,
    run_trace w max_iter (run_optim max_iter terminate_function w) Xs Ys new m.
Proof.
  assert (Hinit : forall b : bar_call num,
            trace_invariant w 0
              (mkWorld (self w) (calls w ++ [Call_bar b])) [] [] [Call_bar b]).
  { intros b. unfold trace_invariant. simpl.
    split; [apply extended_by_refl|].
    split; [symmetry; apply surrogate_after_nil|].
    split; [reflexivity|]. split; [reflexivity|]. split; [reflexivity|].
    split; [intros k loc y H; destruct k; discriminate H|].
    split; reflexivity. }
  assert (Hclose : forall w1 r r' Xs Ys new m (b : bar_call num),
            run_trace w max_iter (w1, r) Xs Ys new m ->
            (r' = Ok tt -> r = Ok tt) ->
            run_trace w max_iter
              (mkWorld (self w1) (calls w1 ++ [Call_bar b]), r') Xs Ys
              (new ++ [Call_bar b]) m).
  { intros w1 r r' Xs Ys new m b
      (H1 & H2 & H3 & H4 & H5 & H6 & H7 & H8 & H9 & H10) Hr.
    unfold run_trace in *. simpl in *.
    unfold proposals, evaluations, updates in *.
    rewrite !flat_map_app. simpl. rewrite !app_nil_r.
    rewrite H3, <- app_assoc.
    split; [exact H1|]. split; [exact H2|]. split; [reflexivity|].
    split; [exact H4|]. split; [exact H5|]. split; [auto|].
    split; [exact H7|]. split; [exact H8|]. split; assumption. }
  rewrite run_optim_unfold. cbv zeta.
  destruct (tqdm_bar (tqdm max_iter)) as [[]|e].
  2:{ exists [], [], [Call_bar (tqdm max_iter)], 0%nat.
      apply trace_invariant_done; [apply Hinit|lia]. }
  set (w0 := mkWorld _ _).
  set (body := run_optim_body terminate_function).
  assert (H : exists Xs Ys new m,
            run_trace w max_iter
              (fst (for_in (range max_iter) body w0),
               snd (for_in (range max_iter) body w0)) Xs Ys new m).
  { destruct (Z.le_gt_cases max_iter 0) as [Hn|Hn].
    { rewrite range_neg by exact Hn. simpl.
      exists [], [], [Call_bar (tqdm max_iter)], 0%nat.
      apply trace_invariant_done; [apply Hinit|lia]. }
    replace (range max_iter) with (range (Z.of_nat (Z.to_nat max_iter)))
      by (f_equal; lia).
    refine (@for_in_rule _ body (Z.to_nat max_iter)
              (fun k wk => exists Xs Ys new, trace_invariant w k wk Xs Ys new)
              (fun wk r => exists Xs Ys new m,
                 run_trace w max_iter (wk, r) Xs Ys new m) _ _ w0 _).
    - intros k wk Hk (Xs & Ys & new & Hinv).
      unfold body. rewrite run_optim_body_unfold.
      destruct (iteration_trace terminate_function (Z.of_nat k) wk)
        as (inew & Hcalls & Hp & Hcase).
      destruct (iteration terminate_function (Z.of_nat k) wk) as [w' r].
      simpl in Hcalls, Hcase.
      destruct Hcase as [(loc & av & y & g & Hacq & Hobj & Hgpr & Hself & He & Hu)
                        |(Hself & (e & He) & Hle)].
      + pose proof (@trace_invariant_step w k wk w' Xs Ys new inew loc av y g
                      Hinv Hcalls Hp Hacq Hobj Hgpr Hself He Hu) as Hinv'.
        destruct r as [[|]|e]; [| eauto |];
          exists (Xs ++ [loc]), (Ys ++ [y]), (new ++ inew), (S k);
          (apply trace_invariant_done; [exact Hinv'|lia]).
      + subst r.
        destruct Hinv as (Hext & Hg & Hlen & Hc & Hprop & Hrec & Hev & Hup).
        pose proof Hext as (_ & HlenXY & _).
        exists Xs, Ys, (new ++ inew), (S k). unfold run_trace. cbn [fst snd].
        rewrite Hself.
        split; [exact Hext|]. split; [exact Hg|].
        split; [rewrite Hcalls, Hc, <- app_assoc; reflexivity|].
        split; [lia|]. split; [lia|]. split; [discriminate|].
        split.
        { unfold proposals in *. rewrite flat_map_app. fold (proposals new).
          unfold proposals at 1. rewrite Hprop, Hp, Hg. symmetry.
          apply expected_proposals_S; lia. }
        split; [exact Hrec|].
        unfold evaluations, updates in *. rewrite !flat_map_app, Hev, Hup.
        split; eexists; (split; [reflexivity|]); lia.
    - intros wk (Xs & Ys & new & Hinv). exists Xs, Ys, new, (Z.to_nat max_iter).
      apply trace_invariant_done; [exact Hinv|lia].
    - exists [], [], [Call_bar (tqdm max_iter)]. apply Hinit. }
  destruct (for_in (range max_iter) body w0) as [w1 r]. simpl in H.
  destruct H as (Xs & Ys & new & m & H).
  exists Xs, Ys, (new ++ [Call_bar close]), m.
  destruct (tqdm_bar close) as [[]|e]; eapply Hclose; eauto. discriminate.
Qed.

(** X5: in every run the acquisition optimiser is called with the indices
    [0, 1, ..., m - 1], in this order and whatever the object already
    holds: the index starts again at [0] in every run.  There are at most
    [max_iter] such calls; each but possibly the last led to a recorded
    observation, and every one did when the run completed. *)
Theorem iterations_are_numbered_from_zero max_iter terminate_function w :
  let r := run_optim max_iter terminate_function w in
  exists new m,
    calls (fst r) = calls w ++ new /\
    map snd (proposals new) = range (Z.of_nat m) /\
    Z.of_nat m <= Z.max 0 max_iter /\
    n_trial (self w) + Z.of_nat m - 1 <= n_trial (self (fst r))
      <= n_trial (self w) + Z.of_nat m /\
    (snd r = Ok tt -> n_trial (self (fst r)) = n_trial (self w) + Z.of_nat m).
Proof.
  cbv zeta.
  destruct (run_optim_trace max_iter terminate_function w)
    as (Xs & Ys & new & m & Hext & _ & Hcalls & Hm & Hmax & Hok & Hprop & _).
  exists new, m. split; [exact Hcalls|].
  assert (Hn : n_trial (self (fst (run_optim max_iter terminate_function w)))
               = n_trial (self w) + Z.of_nat (length Ys)).
  { unfold n_trial. destruct Hext as (_ & _ & _ & -> & _).
    rewrite length_app. lia. }
  split.
  { rewrite Hprop. unfold expected_proposals, range.
    rewrite map_map, Nat2Z.id. reflexivity. }
  split; [exact Hmax|]. split; [lia|].
  intros H. rewrite (Hok H). exact Hn.
Qed.

(** X6: what a run records is what the collaborators answered, used as it
    is.  The [k]-th location a run appends is the location the acquisition
    optimiser returned at index [k] for the surrogate that holds everything
    recorded before it, and the [k]-th value is the objective's answer at
    that location; the surrogate ends up holding exactly these
    observations behind the ones it held. *)
Theorem history_follows_the_collaborators max_iter terminate_function w :
  let o := self w in
  let o' := self (fst (run_optim max_iter terminate_function w)) in
  exists Xs Ys,
    X_history o' = X_history o ++ Xs /\
    Y_history o' = Y_history o ++ Ys /\
    gpr o' = surrogate_after o Xs Ys /\
    forall k loc y,
      nth_error Xs k = Some loc -> nth_error Ys k = Some y ->
      (exists av,
         acq_optimizer o (surrogate_after o (firstn k Xs) (firstn k Ys)) (acq o)
           (Z.of_nat k) = Ok (loc, av)) /\
      objectivefunction o (objective_args (function_unpack o) loc) = Ok y.
Proof.
  cbv zeta.
  destruct (run_optim_trace max_iter terminate_function w)
    as (Xs & Ys & new & m & Hext & Hg & _ & _ & _ & _ & _ & Hrec & _).
  exists Xs, Ys. destruct Hext as (_ & _ & HX & HY & _). auto.
Qed.

(** X7: the objective is evaluated once per recorded observation, at the
    recorded location, and the surrogate is updated once per recorded
    observation, with the recorded pair, both in the order of the history.
    A run that ends with an exception may have made one more evaluation
    and one more update attempt, for the observation that was not
    recorded; a run that completes has made none. *)
Theorem one_evaluation_and_one_update_per_observation
    max_iter terminate_function w :
  let o := self w in
  let r := run_optim max_iter terminate_function w in
  exists Xs Ys new extra_evaluations extra_updates,
    X_history (self (fst r)) = X_history o ++ Xs /\
    Y_history (self (fst r)) = Y_history o ++ Ys /\
    calls (fst r) = calls w ++ new /\
    evaluations new
    = map (objective_args (function_unpack o)) Xs ++ extra_evaluations /\
    updates new = combine (map (@atleast_2d num) Xs) Ys ++ extra_updates /\
    (length extra_evaluations <= 1)%nat /\ (length extra_updates <= 1)%nat /\
    (snd r = Ok tt -> extra_evaluations = [] /\ extra_updates = []).
Proof.
  cbv zeta.
  destruct (run_optim_trace max_iter terminate_function w)
    as (Xs & Ys & new & m & Hext & _ & Hcalls & Hm & _ & Hok & _ & _
        & (ee & He & Hle) & (eu & Hu & Hlu)).
  exists Xs, Ys, new, ee, eu. destruct Hext as (_ & _ & HX & HY & _).
  split; [exact HX|]. split; [exact HY|]. split; [exact Hcalls|].
  split; [exact He|]. split; [exact Hu|]. split; [lia|]. split; [lia|].
  intros H. specialize (Hok H).
  split; apply length_zero_iff_nil; lia.
Qed.

(** ** Runs on an object that already has a history *)

Lemma predicate_answer_from_app terminate_function X0 Y0 Xs Ys
    (loc : list num) (y : num) j :
  (j < length Xs)%nat -> (j < length Ys)%nat ->
  predicate_answer_from terminate_function X0 Y0 (Xs ++ [loc]) (Ys ++ [y]) j
  = predicate_answer_from terminate_function X0 Y0 Xs Ys j.
Proof.
  intros HX HY. unfold predicate_answer_from.
  destruct terminate_function as [t|]; [|reflexivity].
  rewrite !firstn_app_le by lia. reflexivity.
Qed.

(** X8: a completed run on an object that already has a history appends
    [min(max_iter, i + 1)] observations, for the first iteration [i] of
    this run at which the predicate answers true, and [max_iter] when it
    never does or there is no predicate.  The predicate is asked with the
    index of the iteration within the run, which starts at [0], and with
    the whole histories, the entries of earlier runs included. *)
Theorem later_runs_stop_on_the_whole_history
    max_iter terminate_function w w' :
  0 <= max_iter ->
  run_optim max_iter terminate_function w = (w', Ok tt) ->
  exists Xs Ys,
    X_history (self w') = X_history (self w) ++ Xs /\
    Y_history (self w') = Y_history (self w) ++ Ys /\
    length Xs = length Ys /\
    n_trial (self w') = n_trial (self w) + Z.of_nat (length Ys) /\
    let answer := predicate_answer_from terminate_function
                    (X_history (self w)) (Y_history (self w)) Xs Ys in
    (exists i, Z.of_nat i < max_iter /\ answer i = Ok true /\
               (forall k, (k < i)%nat -> answer k = Ok false) /\
               Z.of_nat (length Ys) = Z.min max_iter (Z.of_nat i + 1)) \/
    ((forall k, Z.of_nat k < max_iter -> answer k = Ok false) /\
     Z.of_nat (length Ys) = max_iter).
Proof.
  intros Hmax Hrun.
  destruct (run_optim_ok _ _ _ Hrun) as (w1 & Hloop & Hself & _).
  rewrite Hself. clear Hrun Hself w'.
  set (n := Z.to_nat max_iter).
  replace max_iter with (Z.of_nat n) in * by (unfold n; lia).
  set (w0 := mkWorld _ _) in Hloop.
  set (X0 := X_history (self w)). set (Y0 := Y_history (self w)).
  pose (P := fun (k : nat) (wk : World num acq_fn) =>
    exists Xs Ys,
      X_history (self wk) = X0 ++ Xs /\ Y_history (self wk) = Y0 ++ Ys /\
      length Xs = k /\ length Ys = k /\
      forall j, (j < k)%nat ->
        predicate_answer_from terminate_function X0 Y0 Xs Ys j = Ok false).
  pose (Post := fun (wk : World num acq_fn) =>
    exists Xs Ys,
      X_history (self wk) = X0 ++ Xs /\ Y_history (self wk) = Y0 ++ Ys /\
      length Xs = length Ys /\
      ((exists i, (i < n)%nat /\
          predicate_answer_from terminate_function X0 Y0 Xs Ys i = Ok true /\
          (forall k, (k < i)%nat ->
             predicate_answer_from terminate_function X0 Y0 Xs Ys k = Ok false) /\
          length Ys = S i) \/
       ((forall k, (k < n)%nat ->
           predicate_answer_from terminate_function X0 Y0 Xs Ys k = Ok false) /\
        length Ys = n))).
  assert (H : Post w1).
  { cut ((fun wk r => r = Ok tt -> Post wk)
           (fst (for_in (range (Z.of_nat n)) (run_optim_body terminate_function) w0))
           (snd (for_in (range (Z.of_nat n)) (run_optim_body terminate_function) w0))).
    { rewrite Hloop. simpl. auto. }
    refine (@for_in_rule _ (run_optim_body terminate_function) n P
              (fun wk r => r = Ok tt -> Post wk) _ _ w0 _).
    - intros k wk Hk (Xs & Ys & HX & HY & HlX & HlY & Hans).
      rewrite run_optim_body_unfold.
      destruct (iteration terminate_function (Z.of_nat k) wk) as [w' r] eqn:Hit.
      destruct r as [b|e]; [|intros Hd; discriminate Hd].
      destruct (iteration_ok _ _ _ Hit) as (loc & y & g & _ & Hw' & Htf).
      assert (HX' : X_history (self w') = X0 ++ (Xs ++ [loc]))
        by (rewrite Hw', observe_X_history, HX, app_assoc; reflexivity).
      assert (HY' : Y_history (self w') = Y0 ++ (Ys ++ [y]))
        by (rewrite Hw', observe_Y_history, HY, app_assoc; reflexivity).
      assert (Hold : forall j, (j < k)%nat ->
                predicate_answer_from terminate_function X0 Y0
                  (Xs ++ [loc]) (Ys ++ [y]) j = Ok false)
        by (intros j Hj; rewrite predicate_answer_from_app by lia; auto).
      assert (Hb : predicate_answer_from terminate_function X0 Y0
                     (Xs ++ [loc]) (Ys ++ [y]) k = Ok b).
      { unfold predicate_answer_from.
        destruct terminate_function as [t|]; [|subst b; reflexivity].
        rewrite !firstn_all2 by (rewrite length_app; simpl; lia).
        rewrite <- HX', <- HY'. apply Htf. }
      destruct b.
      + intros _. exists (Xs ++ [loc]), (Ys ++ [y]).
        rewrite !length_app. simpl.
        split; [exact HX'|]. split; [exact HY'|]. split; [lia|].
        left. exists k. repeat split; auto. lia.
      + exists (Xs ++ [loc]), (Ys ++ [y]). rewrite !length_app. simpl.
        split; [exact HX'|]. split; [exact HY'|]. split; [lia|]. split; [lia|].
        intros j Hj. destruct (Nat.eq_dec j k) as [->|Hne]; [exact Hb|].
        apply Hold. lia.
    - intros wk (Xs & Ys & HX & HY & HlX & HlY & Hans) _.
      exists Xs, Ys. split; [exact HX|]. split; [exact HY|]. split; [lia|].
      right. split; [exact Hans|exact HlY].
    - exists [], []. unfold w0, X0, Y0. simpl. rewrite !app_nil_r.
      repeat split; intros; lia. }
  destruct H as (Xs & Ys & HX & HY & Hlen & Hcases).
  exists Xs, Ys. split; [exact HX|]. split; [exact HY|]. split; [exact Hlen|].
  split; [unfold n_trial; rewrite HY; unfold Y0; rewrite length_app; lia|].
  cbv zeta. destruct Hcases as [(i & Hi & Htrue & Hfalse & Hl)|(Hfalse & Hl)].
  - left. exists i. repeat split; auto; lia.
  - right. split; [|lia]. intros k Hk. apply Hfalse. lia.
Qed.

(** ** The earliest best observation *)

Lemma nth_error_snoc_cases {A} (l : list A) a k u :
  nth_error (l ++ [a]) k = Some u ->
  ((k < length l)%nat /\ nth_error l k = Some u) \/ (k = length l /\ u = a).
Proof.
  intros H. destruct (Nat.lt_ge_cases k (length l)) as [Hk|Hk].
  - left. rewrite nth_error_app1 in H by lia. auto.
  - right. assert (Hlt : (k < length (l ++ [a]))%nat)
      by (apply nth_error_Some; congruence).
    rewrite length_app in Hlt. simpl in Hlt.
    assert (k = length l) by lia. subst k.
    rewrite nth_error_app2, Nat.sub_diag in H by lia.
    injection H as <-. auto.
Qed.

Section WeakOrder.

(** The comparison is a strict weak order, as [<] is on numbers: besides
    being irreflexive and transitive, an element below [b] is below any
    [c] that is not itself below [b]. *)
Hypothesis lt_irrefl : forall a : num, ltb a a = false.
Hypothesis lt_trans :
  forall a b c : num, ltb a b = true -> ltb b c = true -> ltb a c = true.
Hypothesis lt_between :
  forall a b c : num, ltb a b = true -> ltb a c = true \/ ltb c b = true.

Lemma better_between mx (a b c : num) :
  better mx a b = true -> better mx a c = true \/ better mx c b = true.
Proof.
  unfold better, gtb. destruct mx; intros H; [|now apply lt_between].
  destruct (lt_between b a c H); auto.
Qed.

Lemma observe_best_is_first g loc y o :
  best_recorded o ->
  (exists j, best_is_first_at o j) ->
  exists j, best_is_first_at (observe g loc y o) j.
Proof.
  intros [Hlen Hrec] [j (HjX & HjY & Hj)].
  unfold best_is_first_at.
  rewrite observe_X_history, observe_Y_history, observe_best_value,
    observe_best_params.
  replace (maximize (observe g loc y o)) with (maximize o)
    by (symmetry; apply (observe_configuration g loc y o)).
  unfold improves. destruct (best_value o) as [b|] eqn:Hb.
  - destruct (Hj b eq_refl) as [Hun Hearly].
    destruct (better (maximize o) y b) eqn:Hy.
    + exists (length (Y_history o)).
      split; [rewrite <- Hlen, nth_error_app2, Nat.sub_diag by lia; reflexivity|].
      split; [rewrite nth_error_app2, Nat.sub_diag by lia; reflexivity|].
      intros v Hv. injection Hv as <-. split.
      * intros k u Hw. apply nth_error_snoc_cases in Hw.
        destruct Hw as [[_ Hw]|[_ ->]];
          [|unfold better, gtb; destruct (maximize o); apply lt_irrefl].
        destruct (better (maximize o) u y) eqn:Hwy; [|reflexivity].
        rewrite <- (Hun k u Hw). symmetry.
        unfold better, gtb in *. destruct (maximize o); eauto.
      * intros k u Hk Hw. rewrite nth_error_app1 in Hw by lia.
        destruct (@better_between (maximize o) y b u Hy) as [H|H]; [exact H|].
        rewrite (Hun k u Hw) in H. discriminate H.
    + assert (Hjlt : (j < length (Y_history o))%nat)
        by (apply nth_error_Some; congruence).
      exists j.
      split; [rewrite nth_error_app1 by lia; exact HjX|].
      split; [rewrite nth_error_app1 by lia; exact HjY|].
      intros v Hv. injection Hv as <-. split.
      * intros k u Hw. apply nth_error_snoc_cases in Hw.
        destruct Hw as [[_ Hw]|[_ ->]]; [exact (Hun k u Hw)|exact Hy].
      * intros k u Hk Hw. rewrite nth_error_app1 in Hw by lia.
        exact (Hearly k u Hk Hw).
  - destruct Hrec as [_ HY]. rewrite HY in *.
    assert (HX : X_history o = [])
      by (apply length_zero_iff_nil; rewrite Hlen; reflexivity).
    rewrite HX. exists 0%nat. simpl.
    split; [reflexivity|]. split; [reflexivity|].
    intros v Hv. injection Hv as <-. split.
    + intros [|k] u Hw; simpl in Hw; [|destruct k; discriminate Hw].
      injection Hw as <-. unfold better, gtb. destruct (maximize o); apply lt_irrefl.
    + intros k u Hk. lia.
Qed.

(** X9: on every object built by the constructor and driven by runs, the
    best pair is the first entry of the history that nothing in the history
    beats: every later entry is no better, and every earlier entry is
    strictly worse.  Among observations of equal value the earliest is the
    one reported. *)
Theorem best_is_the_earliest_extremum o :
  reachable o ->
  exists j,
    nth_error (X_history o) j = best_params o /\
    nth_error (Y_history o) j = best_value o /\
    forall v, best_value o = Some v ->
      (forall k u, nth_error (Y_history o) k = Some u ->
                   better (maximize o) u v = false) /\
      (forall k u, (k < j)%nat -> nth_error (Y_history o) k = Some u ->
                   better (maximize o) v u = true).
Proof.
  intros H. cut (best_recorded o /\ exists j, best_is_first_at o j);
    [intros [_ Hj]; exact Hj|].
  induction H as [f ii a ao iy k al mx un log log' o Hinit
                 | o max_iter tf log w' r Hr IH Hrun].
  - split; [eapply reachable_best_recorded, reach_init, Hinit|].
    apply init_ok in Hinit. destruct Hinit as (HX & HY & Hv & Hp & _).
    exists 0%nat. unfold best_is_first_at. rewrite HX, HY, Hv, Hp. simpl.
    split; [reflexivity|]. split; [reflexivity|]. intros v Hd. discriminate Hd.
  - replace w' with (fst (run_optim max_iter tf (mkWorld o log)))
      by (rewrite Hrun; reflexivity).
    apply (run_optim_invariant
             (fun o => best_recorded o /\ exists j, best_is_first_at o j));
      [|exact IH].
    intros tf' i w [H1 H2]. rewrite run_optim_body_unfold.
    destruct (iteration_self tf' i w)
      as [->|(loc & av & y & g & _ & _ & _ & ->)]; [auto|].
    split; [now apply observe_best_recorded|now apply observe_best_is_first].
Qed.

End WeakOrder.

(** ** The progress bar *)

Lemma notify_messages (bs : list (bar_call num)) l r :
  notify bs = (l, r) -> exists m, l = map (@Call_bar num) (firstn m bs).
Proof.
  revert l r. unfold notify. induction bs as [|b bs IH]; intros l r H.
  - injection H as <- _. exists 0%nat. reflexivity.
  - fold (notify bs) in *. destruct (tqdm_bar b) as [[]|e].
    + destruct (notify bs) as [l' r']. injection H as <- _.
      destruct (IH l' r' eq_refl) as [m ->]. exists (S m). reflexivity.
    + injection H as <- _. exists 1%nat. reflexivity.
Qed.

Lemma bar_messages_map (bs : list (bar_call num)) :
  bar_messages (map (@Call_bar num) bs) = bs.
Proof.
  unfold bar_messages. induction bs as [|b bs IH]; [reflexivity|].
  simpl. rewrite IH. reflexivity.
Qed.

(** The messages of one iteration: none when nothing was recorded, else the
    first ones of the three messages made for the recorded observation. *)
Lemma iteration_bars terminate_function i w :
  exists new,
    calls (fst (iteration terminate_function i w)) = calls w ++ new /\
    ((bar_messages new = [] /\
      self (fst (iteration terminate_function i w)) = self w) \/
     exists loc y g m,
       self (fst (iteration terminate_function i w)) = observe g loc y (self w) /\
       bar_messages new
       = firstn m (bar_calls loc y (observe g loc y (self w)))).
Proof.
  split_iteration;
    try (destruct (notify_messages _ Hbar) as [m ->]);
    (eexists; split; [reflexivity|]);
    try (left; split; reflexivity);
    right; exists loc, y, g, m; (split; [reflexivity|]);
    unfold bar_messages; simpl; rewrite ?flat_map_app; simpl;
    fold (bar_messages (map (@Call_bar num)
            (firstn m (bar_calls loc y (observe g loc y (self w))))));
    rewrite bar_messages_map, ?app_nil_r; reflexivity.
Qed.

Lemma In_firstn {A} (l : list A) m a : In a (firstn m l) -> In a l.
Proof.
  intros H. rewrite <- (firstn_skipn m l). apply in_or_app. auto.
Qed.

(** X10: the progress message of an iteration is made after the recording:
    the location and the value it shows are those of the observation the
    iteration recorded, and the best pair it shows is the best pair as
    updated by that observation, never an unset best value. *)
Theorem progress_message_shows_the_updated_best
    terminate_function i w new loc y bp bv :
  calls (fst (run_optim_body terminate_function i w)) = calls w ++ new ->
  In (set_postfix_str loc y bp bv) (bar_messages new) ->
  let o' := self (fst (run_optim_body terminate_function i w)) in
  recorded (self w) o' loc y /\
  bp = best_params o' /\ bv = best_value o' /\ bv <> None.
Proof.
  rewrite run_optim_body_unfold. intros Hcalls Hin. cbv zeta.
  destruct (iteration_bars terminate_function i w) as (new' & Hcalls' & Hcase).
  rewrite Hcalls' in Hcalls. apply app_inv_head in Hcalls. subst new'.
  destruct Hcase as [[Hnone _]|(loc0 & y0 & g & m & Hself & Hbars)].
  - rewrite Hnone in Hin. destruct Hin.
  - rewrite Hbars in Hin. apply In_firstn in Hin.
    destruct Hin as [H|[H|[H|[]]]]; try discriminate H.
    injection H as <- <- <- <-. rewrite Hself.
    split; [apply observe_recorded|]. split; [reflexivity|].
    split; [reflexivity|].
    rewrite observe_best_value. unfold improves.
    destruct (best_value (self w)) as [b|]; [|discriminate].
    destruct (better _ _ _); discriminate.
Qed.

(** X11: a run creates the bar first, with the horizon as its total, and
    closes it last, exactly once, also when the loop ended with an
    exception; in between the bar only receives the messages of the
    iterations.  When the creation raises, the run ends with that
    exception and the bar is not closed. *)
Theorem bar_brackets_the_run max_iter terminate_function w :
  let r := run_optim max_iter terminate_function w in
  match tqdm_bar (tqdm max_iter) with
  | Raise e =>
      r = (mkWorld (self w) (calls w ++ [Call_bar (tqdm max_iter)]), Raise e)
  | Ok _ =>
      exists mid,
        calls (fst r)
        = calls w ++ Call_bar (tqdm max_iter) :: mid ++ [Call_bar close] /\
        Forall (@is_notification num) (bar_messages mid)
  end.
Proof.
  cbv zeta. rewrite run_optim_unfold. cbv zeta.
  destruct (tqdm_bar (tqdm max_iter)) as [[]|e]; [|reflexivity].
  set (w0 := mkWorld _ _).
  set (body := run_optim_body terminate_function).
  assert (H : exists mid,
            calls (fst (for_in (range max_iter) body w0)) = calls w0 ++ mid /\
            Forall (@is_notification num) (bar_messages mid)).
  { assert (H0 : exists mid, calls w0 = calls w0 ++ mid /\
                   Forall (@is_notification num) (bar_messages mid))
      by (exists []; rewrite app_nil_r; split; [reflexivity|constructor]).
    destruct (Z.le_gt_cases max_iter 0) as [Hn|Hn].
    { rewrite range_neg by exact Hn. exact H0. }
    replace (range max_iter) with (range (Z.of_nat (Z.to_nat max_iter)))
      by (f_equal; lia).
    refine (@for_in_rule _ body (Z.to_nat max_iter)
              (fun _ wk => exists mid, calls wk = calls w0 ++ mid /\
                 Forall (@is_notification num) (bar_messages mid))
              (fun wk _ => exists mid, calls wk = calls w0 ++ mid /\
                 Forall (@is_notification num) (bar_messages mid))
              _ _ w0 H0); [|auto].
    intros k wk _ (mid & Hmid & Hall).
    unfold body. rewrite run_optim_body_unfold.
    assert (H' : exists mid',
              calls (fst (iteration terminate_function (Z.of_nat k) wk))
              = calls w0 ++ mid' /\
              Forall (@is_notification num) (bar_messages mid')).
    { destruct (iteration_bars terminate_function (Z.of_nat k) wk)
        as (new & Hnew & Hcase).
      exists (mid ++ new). rewrite Hnew, Hmid, <- app_assoc.
      split; [reflexivity|].
      unfold bar_messages in *. rewrite flat_map_app. apply Forall_app.
      split; [exact Hall|].
      destruct Hcase as [[-> _]|(loc & y & g & m & _ & ->)]; [constructor|].
      apply Forall_forall. intros b Hb. apply In_firstn in Hb.
      destruct Hb as [<-|[<-|[<-|[]]]]; exact I. }
    destruct (iteration _ _ wk) as [w' [[|]|e]]; exact H'. }
  destruct (for_in (range max_iter) body w0) as [w1 r]. simpl in H.
  destruct H as (mid & Hmid & Hall). exists mid.
  split; [|exact Hall].
  destruct (tqdm_bar close); simpl; rewrite Hmid; unfold w0; simpl;
    rewrite <- !app_assoc; reflexivity.
Qed.

(** ** The direction of the optimisation *)

Lemma observe_same_but_direction g loc y o1 o2 :
  same_but_direction o1 o2 ->
  same_but_direction (observe g loc y o1) (observe g loc y o2).
Proof.
  intros (Hf & HiX & Hu & HiY & Hk & Ha & Hg & HX & HY & Hacq & Hopt).
  unfold same_but_direction.
  rewrite !observe_X_history, !observe_Y_history, !observe_gpr, HX, HY.
  destruct (observe_configuration g loc y o1)
    as (-> & -> & -> & -> & _ & -> & -> & -> & ->).
  destruct (observe_configuration g loc y o2)
    as (-> & -> & -> & -> & _ & -> & -> & -> & ->).
  repeat split; assumption.
Qed.

Section BarIgnoresBest.

(** What the bar answers to a progress message does not depend on the best
    pair the message shows. *)
Hypothesis bar_ignores_best :
  forall (loc : list num) (y : num) bp bv bp' bv',
    tqdm_bar (set_postfix_str loc y bp bv) = tqdm_bar (set_postfix_str loc y bp' bv').

Lemma notify_same_outcome (loc : list num) (y : num) o1 o2 :
  snd (notify (bar_calls loc y o1)) = snd (notify (bar_calls loc y o2)).
Proof.
  unfold bar_calls, notify.
  rewrite (bar_ignores_best loc y (best_params o1) (best_value o1)
             (best_params o2) (best_value o2)).
  destruct (tqdm_bar (set_description_str "BayesOpt")) as [[]|e]; [|reflexivity].
  destruct (tqdm_bar (set_postfix_str loc y _ _)) as [[]|e]; [|reflexivity].
  destruct (tqdm_bar update) as [[]|e]; reflexivity.
Qed.

Lemma iteration_same_but_direction terminate_function i w1 w2 :
  same_but_direction (self w1) (self w2) ->
  same_but_direction (self (fst (iteration terminate_function i w1)))
                     (self (fst (iteration terminate_function i w2))) /\
  snd (iteration terminate_function i w1) = snd (iteration terminate_function i w2).
Proof.
  intros HR. pose proof HR as
    (Hf & HiX & Hu & HiY & Hk & Ha & Hg & HX & HY & Hacq & Hopt).
  unfold iteration. cbv zeta. rewrite Hf, Hu, Hg, Hacq, Hopt.
  destruct (acq_optimizer (self w2) _ _ _) as [[loc av]|e]; [|auto].
  destruct (objectivefunction (self w2) _) as [y|e]; [|auto].
  destruct (GPR_append_data _ _ _) as [g|e]; [|auto].
  pose proof (observe_same_but_direction g loc y HR) as HR'.
  pose proof (notify_same_outcome loc y (observe g loc y (self w1))
                (observe g loc y (self w2))) as Hn.
  destruct (notify (bar_calls loc y (observe g loc y (self w1)))) as [l1 r1].
  destruct (notify (bar_calls loc y (observe g loc y (self w2)))) as [l2 r2].
  simpl in Hn. subst r2. destruct r1 as [e|]; [auto|].
  destruct terminate_function as [t|]; [|auto].
  simpl. split; [exact HR'|].
  destruct HR' as (_ & _ & _ & _ & _ & _ & _ & -> & -> & _). reflexivity.
Qed.

Lemma run_optim_same_but_direction max_iter terminate_function w1 w2 :
  same_but_direction (self w1) (self w2) ->
  same_but_direction
    (self (fst (run_optim max_iter terminate_function w1)))
    (self (fst (run_optim max_iter terminate_function w2))) /\
  snd (run_optim max_iter terminate_function w1)
  = snd (run_optim max_iter terminate_function w2).
Proof.
  intros HR. rewrite !run_optim_unfold. cbv zeta.
  destruct (tqdm_bar (tqdm max_iter)) as [[]|e]; [|auto].
  set (w10 := mkWorld (self w1) _). set (w20 := mkWorld (self w2) _).
  assert (H : forall xs w1 w2,
            same_but_direction (self w1) (self w2) ->
            same_but_direction
              (self (fst (for_in xs (run_optim_body terminate_function) w1)))
              (self (fst (for_in xs (run_optim_body terminate_function) w2))) /\
            snd (for_in xs (run_optim_body terminate_function) w1)
            = snd (for_in xs (run_optim_body terminate_function) w2)).
  { induction xs as [|i xs IH]; intros u1 u2 Hu; [simpl; auto|].
    rewrite !for_in_cons, !run_optim_body_unfold.
    destruct (iteration_same_but_direction terminate_function i u1 u2 Hu)
      as [Hu' Hres].
    destruct (iteration terminate_function i u1) as [u1' r1].
    destruct (iteration terminate_function i u2) as [u2' r2].
    simpl in Hu', Hres. subst r2. destruct r1 as [[|]|e]; simpl; auto. }
  destruct (H (range max_iter) w10 w20 HR) as [HR' Hres].
  destruct (for_in _ _ w10) as [w11 r1]. destruct (for_in _ _ w20) as [w21 r2].
  simpl in HR', Hres. subst r2. destruct (tqdm_bar close); auto.
Qed.

(** X12: the direction of the optimisation does not steer the search.  Two
    objects built from the same arguments but for opposite directions make
    the same calls at construction, and a run on each records the same
    locations and values in the histories and in the surrogate and ends
    the same way; only the best pair can differ. *)
Theorem direction_does_not_steer_the_search
    (f : objective_fn num) initial_input (acq0 : acq_fn) acq_optim initial_Y0
    kernel0 alpha0 unpack max_iter terminate_function :
  let c_min := __init__ f initial_input acq0 acq_optim initial_Y0 kernel0 alpha0
                 false unpack [] in
  let c_max := __init__ f initial_input acq0 acq_optim initial_Y0 kernel0 alpha0
                 true unpack [] in
  fst c_min = fst c_max /\
  match snd c_min, snd c_max with
  | Ok o_min, Ok o_max =>
      let r_min := run_optim max_iter terminate_function
                     (mkWorld o_min (fst c_min)) in
      let r_max := run_optim max_iter terminate_function
                     (mkWorld o_max (fst c_max)) in
      X_history (self (fst r_min)) = X_history (self (fst r_max)) /\
      Y_history (self (fst r_min)) = Y_history (self (fst r_max)) /\
      gpr (self (fst r_min)) = gpr (self (fst r_max)) /\
      snd r_min = snd r_max
  | Raise e_min, Raise e_max => e_min = e_max
  | _, _ => False
  end.
Proof.
  cbv zeta. unfold __init__, bind, lift, called, ret.
  destruct (transform_data initial_input) as [X|e]; [|simpl; auto].
  destruct (__calculate_initialY f X unpack initial_Y0 []) as [l [Y|e]];
    [|simpl; auto].
  destruct (data_checker X Y) as [[]|e]; [|simpl; auto].
  set (k := match kernel0 with Some k => k | None => GaussianRBFKernel 1 1 end).
  destruct (GPR_new X Y alpha0 k) as [g|e]; [|simpl; auto].
  simpl. split; [reflexivity|].
  destruct (@run_optim_same_but_direction max_iter terminate_function
              (mkWorld (mkBayesOpt f X unpack Y false k alpha0 g [] [] None None
                          acq0 acq_optim) (l ++ [Call_GPR X Y]))
              (mkWorld (mkBayesOpt f X unpack Y true k alpha0 g [] [] None None
                          acq0 acq_optim) (l ++ [Call_GPR X Y])))
    as [(_ & _ & _ & _ & _ & _ & Hg & HX & HY & _) Hres].
  { unfold same_but_direction. simpl. repeat split. }
  auto.
Qed.

End BarIgnoresBest.

(** ** The questions put to the predicate *)

Lemma expected_questions_stable terminate_function X0 Y0 Xs Ys
    (a : list (list num)) (b : list num) q :
  (q <= length Xs)%nat -> (q <= length Ys)%nat ->
  expected_questions terminate_function X0 Y0 (Xs ++ a) (Ys ++ b) q
  = expected_questions terminate_function X0 Y0 Xs Ys q.
Proof.
  intros HX HY. unfold expected_questions.
  destruct terminate_function as [t|]; [|reflexivity].
  apply map_ext_in. intros k Hk. apply in_seq in Hk.
  rewrite !firstn_app_le by lia. reflexivity.
Qed.

Lemma expected_questions_S terminate_function X0 Y0 Xs Ys
    (loc : list num) (y : num) :
  length Xs = length Ys ->
  expected_questions terminate_function X0 Y0 (Xs ++ [loc]) (Ys ++ [y])
    (S (length Ys))
  = expected_questions terminate_function X0 Y0 Xs Ys (length Ys) ++
    match terminate_function with
    | None => []
    | Some _ => [(Z.of_nat (length Ys), X0 ++ Xs ++ [loc], Y0 ++ Ys ++ [y])]
    end.
Proof.
  intros Hlen.
  pose proof (@expected_questions_stable terminate_function X0 Y0 Xs Ys
                [loc] [y] (length Ys) ltac:(lia) ltac:(lia)) as Hst.
  rewrite <- Hst. unfold expected_questions.
  destruct terminate_function as [t|]; [|reflexivity].
  rewrite seq_S, map_app, Nat.add_0_l. cbn [map]. f_equal.
  rewrite !firstn_all2 by (rewrite length_app; simpl; lia). reflexivity.
Qed.

(** The question of one iteration: asked once the observation is recorded
    and the bar notified, and only then. *)
Lemma iteration_questions terminate_function i w :
  exists new,
    calls (fst (iteration terminate_function i w)) = calls w ++ new /\
    ((exists loc y g,
        self (fst (iteration terminate_function i w)) = observe g loc y (self w) /\
        (questions new =
           match terminate_function with
           | None => []
           | Some _ => [(i, X_history (self w) ++ [loc], Y_history (self w) ++ [y])]
           end \/
         (questions new = [] /\
          exists e, snd (iteration terminate_function i w) = Raise e))) \/
     (self (fst (iteration terminate_function i w)) = self w /\
      questions new = [] /\
      exists e, snd (iteration terminate_function i w) = Raise e)).
Proof.
  split_iteration;
    try (pose proof (notify_bar_calls _ Hbar) as Hl);
    (eexists; split; [reflexivity|]).
  - left. exists loc, y, g. split; [reflexivity|]. right.
    project_log Hl. split; [reflexivity|]. eauto.
  - left. exists loc, y, g. split; [reflexivity|]. left.
    project_log Hl. rewrite observe_X_history, observe_Y_history. reflexivity.
  - left. exists loc, y, g. split; [reflexivity|]. left.
    project_log Hl. reflexivity.
  - right. split; [reflexivity|]. split; [reflexivity|]. eauto.
  - right. split; [reflexivity|]. split; [reflexivity|]. eauto.
  - right. split; [reflexivity|]. split; [reflexivity|]. eauto.
Qed.

(** X13: the predicate is asked once per recorded observation, in the
    order of the iterations, after the observation is recorded: question
    [k] of a run carries the index [k], counted from the start of this run,
    and the two histories as they stand, from their first entry, kept from
    earlier runs, to the observation of iteration [k] included.  Only the
    last recorded observation can be left without its question, when the
    bar raised before the predicate was reached; a run that returns has
    asked about every observation it recorded.  Without a predicate
    nothing is asked. *)
Theorem predicate_is_asked_after_each_observation
    max_iter terminate_function w :
  let r := run_optim max_iter terminate_function w in
  exists new Xs Ys q,
    calls (fst r) = calls w ++ new /\
    X_history (self (fst r)) = X_history (self w) ++ Xs /\
    Y_history (self (fst r)) = Y_history (self w) ++ Ys /\
    length Xs = length Ys /\
    questions new = expected_questions terminate_function
                      (X_history (self w)) (Y_history (self w)) Xs Ys q /\
    (q <= length Ys <= S q)%nat /\
    (snd r = Ok tt -> q = length Ys).
Proof.
  cbv zeta.
  set (X0 := X_history (self w)). set (Y0 := Y_history (self w)).
  pose (Post := fun (wk : World num acq_fn) (r : result unit) =>
    exists new Xs Ys q,
      calls wk = calls w ++ new /\
      X_history (self wk) = X0 ++ Xs /\ Y_history (self wk) = Y0 ++ Ys /\
      length Xs = length Ys /\
      questions new = expected_questions terminate_function X0 Y0 Xs Ys q /\
      (q <= length Ys <= S q)%nat /\ (r = Ok tt -> q = length Ys)).
  pose (P := fun (k : nat) (wk : World num acq_fn) =>
    exists new Xs Ys,
      calls wk = calls w ++ new /\
      X_history (self wk) = X0 ++ Xs /\ Y_history (self wk) = Y0 ++ Ys /\
      length Xs = length Ys /\ length Ys = k /\
      questions new = expected_questions terminate_function X0 Y0 Xs Ys k).
  assert (Hzero : expected_questions terminate_function X0 Y0 [] [] 0 = [])
    by (unfold expected_questions; destruct terminate_function; reflexivity).
  assert (Hstart : forall b : bar_call num,
            P 0%nat (mkWorld (self w) (calls w ++ [Call_bar b]))).
  { intros b. exists [Call_bar b], [], []. rewrite Hzero. simpl.
    rewrite !app_nil_r. repeat split. }
  assert (Hdone : forall k wk r, P k wk -> Post wk r).
  { intros k wk r (new & Xs & Ys & Hc & HX & HY & Hl & Hk & Hq).
    exists new, Xs, Ys, k. repeat split; auto; lia. }
  assert (Hclose : forall wk r r' (b : bar_call num),
            Post wk r -> (r' = Ok tt -> r = Ok tt) ->
            Post (mkWorld (self wk) (calls wk ++ [Call_bar b])) r').
  { intros wk r r' b (new & Xs & Ys & q & Hc & HX & HY & Hl & Hq & Hb & Hr) Hrr.
    exists (new ++ [Call_bar b]), Xs, Ys, q. simpl.
    rewrite Hc, <- app_assoc.
    split; [reflexivity|]. split; [exact HX|]. split; [exact HY|].
    split; [exact Hl|].
    split; [unfold questions in *; rewrite flat_map_app; simpl;
            rewrite app_nil_r; exact Hq|].
    split; [exact Hb|auto]. }
  change (Post (fst (run_optim max_iter terminate_function w))
               (snd (run_optim max_iter terminate_function w))).
  rewrite run_optim_unfold. cbv zeta.
  destruct (tqdm_bar (tqdm max_iter)) as [[]|e].
  2:{ simpl. eapply Hdone, Hstart. }
  set (w0 := mkWorld _ _).
  set (body := run_optim_body terminate_function).
  assert (H : Post (fst (for_in (range max_iter) body w0))
                   (snd (for_in (range max_iter) body w0))).
  { destruct (Z.le_gt_cases max_iter 0) as [Hn|Hn].
    { rewrite range_neg by exact Hn. simpl. eapply Hdone, Hstart. }
    replace (range max_iter) with (range (Z.of_nat (Z.to_nat max_iter)))
      by (f_equal; lia).
    refine (@for_in_rule _ body (Z.to_nat max_iter) P Post _ _ w0 _).
    - intros k wk Hk (new & Xs & Ys & Hc & HX & HY & Hl & Hlk & Hq).
      unfold body. rewrite run_optim_body_unfold.
      destruct (iteration_questions terminate_function (Z.of_nat k) wk)
        as (inew & Hcalls & Hcase).
      destruct (iteration terminate_function (Z.of_nat k) wk) as [w' r].
      cbn [fst snd] in Hcalls, Hcase.
      assert (Hc' : calls w' = calls w ++ new ++ inew)
        by (rewrite Hcalls, Hc, app_assoc; reflexivity).
      assert (Hqs : questions (new ++ inew) = questions new ++ questions inew)
        by (unfold questions; apply flat_map_app).
      destruct Hcase as [(loc & y & g & Hself & Hasked)|(Hself & Hqi & e & He)].
      + assert (HX' : X_history (self w') = X0 ++ Xs ++ [loc])
          by (rewrite Hself, observe_X_history, HX, app_assoc; reflexivity).
        assert (HY' : Y_history (self w') = Y0 ++ Ys ++ [y])
          by (rewrite Hself, observe_Y_history, HY, app_assoc; reflexivity).
        assert (Hl' : length (Xs ++ [loc]) = length (Ys ++ [y]))
          by (rewrite !length_app; simpl; lia).
        assert (Hk' : length (Ys ++ [y]) = S k)
          by (rewrite length_app; simpl; lia).
        destruct Hasked as [Hqi|(Hqi & e & He)].
        * assert (HP : P (S k) w').
          { exists (new ++ inew), (Xs ++ [loc]), (Ys ++ [y]).
            split; [exact Hc'|]. split; [exact HX'|]. split; [exact HY'|].
            split; [exact Hl'|]. split; [exact Hk'|].
            rewrite Hqs, Hq, Hqi, <- Hlk, expected_questions_S by exact Hl.
            rewrite HX, HY, <- !app_assoc, Hlk. reflexivity. }
          destruct r as [[|]|e]; [eapply Hdone, HP|exact HP|eapply Hdone, HP].
        * rewrite He.
          exists (new ++ inew), (Xs ++ [loc]), (Ys ++ [y]), k.
          split; [exact Hc'|]. split; [exact HX'|]. split; [exact HY'|].
          split; [exact Hl'|].
          split; [rewrite Hqs, Hq, Hqi, app_nil_r;
                  symmetry; apply expected_questions_stable; lia|].
          split; [lia|discriminate].
      + rewrite He.
        exists (new ++ inew), Xs, Ys, k.
        split; [exact Hc'|]. rewrite Hself.
        split; [exact HX|]. split; [exact HY|]. split; [exact Hl|].
        split; [rewrite Hqs, Hq, Hqi, app_nil_r; reflexivity|].
        split; [lia|discriminate].
    - intros wk HP. eapply Hdone, HP.
    - apply Hstart. }
  destruct (for_in (range max_iter) body w0) as [w1 r]. cbn [fst snd] in H.
  destruct (tqdm_bar close) as [[]|e]; cbn [fst snd];
    eapply Hclose; try exact H; auto; discriminate.
Qed.

(** ** Construction from supplied initial values *)

(** X14: a constructor that is given initial values never calls the
    objective, whatever its outcome: it adds to the log the fit of the
    surrogate, or nothing when it fails before reaching it.  When it
    returns, the initial values the object keeps are the supplied ones put
    into two-dimensional form, and they are what the surrogate is trained
    on. *)
Theorem supplied_initial_values_spare_the_objective
    (f : objective_fn num) initial_input (acq0 : acq_fn) acq_optim Y kernel0
    alpha0 maximize0 unpack log :
  let built := __init__ f initial_input acq0 acq_optim (Some Y) kernel0 alpha0
                 maximize0 unpack log in
  exists new,
    fst built = log ++ new /\ evaluations new = [] /\ (length new <= 1)%nat /\
    match snd built with
    | Ok o =>
        new = [Call_GPR (initial_X o) (initial_Y o)] /\
        transform_data initial_input = Ok (initial_X o) /\
        (exists rows, transform_data Y = Ok rows /\ initial_Y o = Arr2 rows) /\
        X_train (gpr o) = initial_X o /\
        Y_train (gpr o) = rows_of (initial_Y o)
    | Raise _ => True
    end.
Proof.
  cbv zeta. unfold __init__, bind, lift.
  destruct (transform_data initial_input) as [X|e] eqn:HX; simpl.
  2:{ exists []. rewrite app_nil_r. repeat split. simpl; lia. }
  unfold __calculate_initialY.
  destruct (negb (shape0 Y =? length X)%nat); simpl.
  { exists []. rewrite app_nil_r. repeat split. simpl; lia. }
  unfold bind, lift, ret.
  destruct (transform_data Y) as [rows|e] eqn:HY; simpl.
  2:{ exists []. rewrite app_nil_r. repeat split. simpl; lia. }
  destruct (data_checker X (Arr2 rows)) as [[]|e]; simpl.
  2:{ exists []. rewrite app_nil_r. repeat split. simpl; lia. }
  unfold called, GPR_new.
  destruct (gpr_fit_ok _ _ _); simpl.
  - eexists. split; [reflexivity|]. split; [reflexivity|].
    split; [simpl; lia|]. split; [reflexivity|]. split; [reflexivity|].
    split; [eauto|]. split; reflexivity.
  - eexists. split; [reflexivity|]. split; [reflexivity|].
    split; [simpl; lia|exact I].
Qed.

(** ** Default initial values *)

Lemma np_array_shape0 (ys : list num) Y :
  np_array ys = Ok Y -> shape0 Y = length ys.
Proof.
  unfold np_array. destruct ys as [|y ys]; [intros H; injection H as <-; reflexivity|].
  destruct (forallb _ _); [|discriminate].
  intros H; injection H as <-.
  destruct (ndim y) as [|[|d]]; simpl; rewrite ?length_map; reflexivity.
Qed.

Lemma np_array_scalars (ys : list num) :
  Forall (fun y => ndim y = 0%nat) ys -> np_array ys = Ok (Arr1 ys).
Proof.
  intros H. unfold np_array. destruct ys as [|y ys]; [reflexivity|].
  assert (Hy : ndim y = 0%nat) by (inversion H; assumption).
  replace (forallb (fun z => Nat.eqb (ndim z) (ndim y)) (y :: ys)) with true;
    [rewrite Hy; reflexivity|].
  symmetry. apply forallb_forall. intros z Hz.
  rewrite Forall_forall in H. rewrite (H z Hz), Hy. reflexivity.
Qed.

Lemma np_array_arrays (ys : list num) :
  ys <> [] -> Forall (fun y => ndim y = 1%nat) ys ->
  np_array ys = Ok (Arr2 (map (fun y => [y]) ys)).
Proof.
  intros Hne H. unfold np_array. destruct ys as [|y ys]; [contradiction|].
  assert (Hy : ndim y = 1%nat) by (inversion H; assumption).
  replace (forallb (fun z => Nat.eqb (ndim z) (ndim y)) (y :: ys)) with true;
    [rewrite Hy; reflexivity|].
  symmetry. apply forallb_forall. intros z Hz.
  rewrite Forall_forall in H. rewrite (H z Hz), Hy. reflexivity.
Qed.

(** A construction without initial values that succeeds. *)
Lemma init_default (f : objective_fn num) initial_input (acq0 : acq_fn) acq_optim
    kernel0 alpha0 maximize0 unpack log log' o :
  __init__ f initial_input acq0 acq_optim None kernel0 alpha0 maximize0 unpack log
  = (log', Ok o) ->
  exists ys,
    np_array ys = Ok (initial_Y o) /\
    Forall2 (fun x y => f (objective_args unpack x) = Ok y) (initial_X o) ys /\
    log' = log ++ map (fun x => Call_objective (objective_args unpack x))
                      (initial_X o)
               ++ [Call_GPR (initial_X o) (initial_Y o)].
Proof.
  unfold __init__, __calculate_initialY, bind, lift, called, ret.
  destruct (transform_data initial_input) as [X|e]; [|discriminate].
  destruct (initialY_loop_spec f unpack X [] log) as (m & Hlog & Hres).
  destruct (initialY_loop f unpack X [] log) as [l1 [ys|e]];
    simpl in Hlog, Hres; [|discriminate].
  destruct Hres as (-> & ys' & -> & HF). simpl.
  destruct (np_array ys') as [Y|e] eqn:HY; [|discriminate].
  destruct (data_checker X Y) as [[]|e]; [|discriminate].
  unfold GPR_new. destruct (gpr_fit_ok _ _ _); [|discriminate].
  intros H; injection H as <- <-. simpl. exists ys'.
  split; [exact HY|]. split; [exact HF|].
  rewrite Hlog, firstn_all, <- app_assoc. reflexivity.
Qed.

(** X2: with no initial values supplied, a construction that succeeds has
    called the objective once per initial location, in the order of the
    locations, and then fitted the surrogate once, on the locations and on
    the array numpy makes of the values the objective answered; nothing
    else was called.  That array has one entry per location: it is
    one-dimensional when the objective answered scalars and has one column
    when it answered arrays of one element, as an objective called with a
    two-dimensional argument does; in both cases the surrogate is trained
    on one value per location. *)
Theorem default_initial_values_are_objective_values
    (f : objective_fn num) initial_input (acq0 : acq_fn) acq_optim kernel0 alpha0
    maximize0 unpack log log' o :
  __init__ f initial_input acq0 acq_optim None kernel0 alpha0 maximize0 unpack log
  = (log', Ok o) ->
  exists ys,
    np_array ys = Ok (initial_Y o) /\
    length ys = length (initial_X o) /\
    shape0 (initial_Y o) = length (initial_X o) /\
    Forall2 (fun x y => f (objective_args unpack x) = Ok y) (initial_X o) ys /\
    log' = log ++ map (fun x => Call_objective (objective_args unpack x))
                      (initial_X o)
               ++ [Call_GPR (initial_X o) (initial_Y o)] /\
    X_train (gpr o) = initial_X o /\
    Y_train (gpr o) = rows_of (initial_Y o) /\
    (Forall (fun y => ndim y = 0%nat) ys ->
     initial_Y o = Arr1 ys /\ Y_train (gpr o) = map (fun y => [y]) ys) /\
    (ys <> [] -> Forall (fun y => ndim y = 1%nat) ys ->
     initial_Y o = Arr2 (map (fun y => [y]) ys) /\
     Y_train (gpr o) = map (fun y => [y]) ys).
Proof.
  intros H.
  destruct (init_default _ _ _ _ _ _ _ _ _ H) as (ys & HY & HF & Hlog).
  pose proof (init_ok _ _ _ _ _ _ _ _ _ _ H) as (_ & _ & _ & _ & HXt & HYt & _).
  assert (Hlen : length ys = length (initial_X o))
    by (symmetry; eapply Forall2_length, HF).
  exists ys. split; [exact HY|]. split; [exact Hlen|].
  split; [rewrite (np_array_shape0 _ HY); exact Hlen|].
  split; [exact HF|]. split; [exact Hlog|]. split; [exact HXt|].
  split; [exact HYt|]. split.
  - intros Hs. rewrite (np_array_scalars Hs) in HY. injection HY as HY.
    rewrite HYt, <- HY. split; reflexivity.
  - intros Hne Ha. rewrite (np_array_arrays Hne Ha) in HY. injection HY as HY.
    rewrite HYt, <- HY. split; reflexivity.
Qed.

(** ** Where a run stops *)

(** The log of an iteration that ends without an exception: one update of
    the surrogate and no question first, then the question, if there is a
    predicate, as the last call. *)
Lemma iteration_ok_log terminate_function i w w' b :
  iteration terminate_function i w = (w', Ok b) ->
  exists loc y g pre,
    GPR_append_data (gpr (self w)) (atleast_2d loc) y = Ok g /\
    self w' = observe g loc y (self w) /\
    updates pre = [(atleast_2d loc, y)] /\ questions pre = [] /\
    match terminate_function with
    | None => b = false /\ calls w' = calls w ++ pre
    | Some t =>
        t i (X_history (self w')) (Y_history (self w')) = Ok b /\
        calls w' = calls w ++ pre ++
                   [Call_terminate i (X_history (self w')) (Y_history (self w'))]
    end.
Proof.
  split_iteration; intros H; try discriminate;
    pose proof (notify_bar_calls _ Hbar) as Hl.
  - injection H as <- Hb.
    exists loc, y, g,
      ([Call_acq_optimizer (gpr (self w)) i;
        Call_objective (objective_args (function_unpack (self w)) loc);
        Call_append_data (atleast_2d loc) y] ++ l).
    split; [exact Hgpr|]. split; [reflexivity|].
    split; [project_log Hl; reflexivity|]. split; [project_log Hl; reflexivity|].
    split; [exact Hb|]. simpl. rewrite <- ?app_assoc. reflexivity.
  - injection H as <- Hb.
    exists loc, y, g,
      ([Call_acq_optimizer (gpr (self w)) i;
        Call_objective (objective_args (function_unpack (self w)) loc);
        Call_append_data (atleast_2d loc) y] ++ l).
    split; [exact Hgpr|]. split; [reflexivity|].
    split; [project_log Hl; reflexivity|]. split; [project_log Hl; reflexivity|].
    split; [symmetry; exact Hb|reflexivity].
Qed.

Lemma asked_after_recording_extend X0 Y0 Xs Ys (a : list (list num))
    (b : list num) (new more : list (call num)) k :
  (k < length Xs)%nat -> (k < length Ys)%nat ->
  asked_after_recording X0 Y0 Xs Ys new k ->
  asked_after_recording X0 Y0 (Xs ++ a) (Ys ++ b) (new ++ more) k.
Proof.
  intros HX HY (before & after & Hnew & Hup & Hq).
  exists before, (after ++ more).
  rewrite !firstn_app_le by lia.
  split; [rewrite Hnew, <- app_assoc; reflexivity|]. split; assumption.
Qed.

(** A run with a horizon that is not negative and that returns: what it
    appended, where it stopped and when it asked. *)
Lemma run_optim_stops max_iter terminate_function w w' :
  0 <= max_iter ->
  run_optim max_iter terminate_function w = (w', Ok tt) ->
  exists Xs Ys new,
    X_history (self w') = X_history (self w) ++ Xs /\
    Y_history (self w') = Y_history (self w) ++ Ys /\
    length Xs = length Ys /\
    calls w' = calls w ++ new /\
    gpr (self w') = surrogate_after (self w) Xs Ys /\
    stops_as_asked terminate_function max_iter
      (X_history (self w)) (Y_history (self w)) Xs Ys /\
    (forall k, terminate_function <> None -> (k < length Ys)%nat ->
       asked_after_recording (X_history (self w)) (Y_history (self w))
         Xs Ys new k).
Proof.
  intros Hmax Hrun.
  destruct (run_optim_ok _ _ _ Hrun) as (w1 & Hloop & Hself & Hcalls).
  rewrite Hself, Hcalls. clear Hrun Hself Hcalls w'.
  set (n := Z.to_nat max_iter).
  replace max_iter with (Z.of_nat n) in * by (unfold n; lia).
  set (w0 := mkWorld _ _) in Hloop.
  set (X0 := X_history (self w)). set (Y0 := Y_history (self w)).
  pose (P := fun (k : nat) (wk : World num acq_fn) =>
    exists Xs Ys new,
      X_history (self wk) = X0 ++ Xs /\ Y_history (self wk) = Y0 ++ Ys /\
      length Xs = k /\ length Ys = k /\
      calls wk = calls w ++ new /\
      gpr (self wk) = surrogate_after (self w) Xs Ys /\
      updates new = combine (map (@atleast_2d num) Xs) Ys /\
      length (questions new)
      = match terminate_function with None => 0%nat | Some _ => k end /\
      (forall j, (j < k)%nat ->
         predicate_answer_from terminate_function X0 Y0 Xs Ys j = Ok false) /\
      (forall j, terminate_function <> None -> (j < k)%nat ->
         asked_after_recording X0 Y0 Xs Ys new j)).
  pose (Post := fun (wk : World num acq_fn) =>
    exists Xs Ys new,
      X_history (self wk) = X0 ++ Xs /\ Y_history (self wk) = Y0 ++ Ys /\
      length Xs = length Ys /\
      calls wk = calls w ++ new /\
      gpr (self wk) = surrogate_after (self w) Xs Ys /\
      ((exists i, (i < n)%nat /\
          predicate_answer_from terminate_function X0 Y0 Xs Ys i = Ok true /\
          (forall k, (k < i)%nat ->
             predicate_answer_from terminate_function X0 Y0 Xs Ys k = Ok false) /\
          length Ys = S i) \/
       ((forall k, (k < n)%nat ->
           predicate_answer_from terminate_function X0 Y0 Xs Ys k = Ok false) /\
        length Ys = n)) /\
      (forall j, terminate_function <> None -> (j < length Ys)%nat ->
         asked_after_recording X0 Y0 Xs Ys new j)).
  assert (H : Post w1).
  { cut ((fun wk r => r = Ok tt -> Post wk)
           (fst (for_in (range (Z.of_nat n)) (run_optim_body terminate_function) w0))
           (snd (for_in (range (Z.of_nat n)) (run_optim_body terminate_function) w0))).
    { rewrite Hloop. simpl. auto. }
    refine (@for_in_rule _ (run_optim_body terminate_function) n P
              (fun wk r => r = Ok tt -> Post wk) _ _ w0 _).
    - intros k wk Hk
        (Xs & Ys & new & HX & HY & HlX & HlY & Hc & Hg & Hup & Hq & Hans & Hask).
      rewrite run_optim_body_unfold.
      destruct (iteration terminate_function (Z.of_nat k) wk) as [w' r] eqn:Hit.
      destruct r as [b|e]; [|intros Hd; discriminate Hd].
      destruct (iteration_ok_log _ _ _ Hit)
        as (loc & y & g & pre & Hgpr & Hw' & Hpu & Hpq & Htf).
      assert (HX' : X_history (self w') = X0 ++ (Xs ++ [loc]))
        by (rewrite Hw', observe_X_history, HX, app_assoc; reflexivity).
      assert (HY' : Y_history (self w') = Y0 ++ (Ys ++ [y]))
        by (rewrite Hw', observe_Y_history, HY, app_assoc; reflexivity).
      assert (HlX' : length (Xs ++ [loc]) = S k)
        by (rewrite length_app; simpl; lia).
      assert (HlY' : length (Ys ++ [y]) = S k)
        by (rewrite length_app; simpl; lia).
      assert (Hg' : gpr (self w') = surrogate_after (self w) (Xs ++ [loc]) (Ys ++ [y])).
      { rewrite Hw', observe_gpr. rewrite Hg in Hgpr.
        apply (surrogate_after_append _ _ _ _ _ Hgpr). }
      assert (Hold : forall j, (j < k)%nat ->
                predicate_answer_from terminate_function X0 Y0
                  (Xs ++ [loc]) (Ys ++ [y]) j = Ok false)
        by (intros j Hj; rewrite predicate_answer_from_app by lia; auto).
      assert (Hb : predicate_answer_from terminate_function X0 Y0
                     (Xs ++ [loc]) (Ys ++ [y]) k = Ok b).
      { unfold predicate_answer_from.
        destruct terminate_function as [t|]; [|destruct Htf as [-> _]; reflexivity].
        rewrite !firstn_all2 by lia.
        rewrite <- HX', <- HY'. apply Htf. }
      assert (Hall : forall j, (j < S k)%nat -> b = false ->
                predicate_answer_from terminate_function X0 Y0
                  (Xs ++ [loc]) (Ys ++ [y]) j = Ok false).
      { intros j Hj ->. destruct (Nat.eq_dec j k) as [->|Hne]; [exact Hb|].
        apply Hold. lia. }
      assert (Hrest : exists new',
                calls w' = calls w ++ new' /\
                updates new' = combine (map (@atleast_2d num) (Xs ++ [loc])) (Ys ++ [y]) /\
                length (questions new')
                = match terminate_function with None => 0%nat | Some _ => S k end /\
                (forall j, terminate_function <> None -> (j < S k)%nat ->
                   asked_after_recording X0 Y0 (Xs ++ [loc]) (Ys ++ [y]) new' j)).
      { assert (Hcomb : updates (new ++ pre)
                        = combine (map (@atleast_2d num) (Xs ++ [loc])) (Ys ++ [y])).
        { unfold updates in *. rewrite flat_map_app, Hup, Hpu, map_app. simpl.
          symmetry. apply combine_snoc. rewrite length_map. lia. }
        assert (Hqq : questions (new ++ pre) = questions new).
        { unfold questions in *. rewrite flat_map_app, Hpq. apply app_nil_r. }
        destruct terminate_function as [t|].
        - destruct Htf as [_ Hcw].
          exists ((new ++ pre) ++
                  [Call_terminate (Z.of_nat k) (X_history (self w'))
                     (Y_history (self w'))]).
          split; [rewrite Hcw, Hc, <- !app_assoc; reflexivity|].
          split; [unfold updates in *; rewrite flat_map_app; simpl;
                  rewrite app_nil_r; exact Hcomb|].
          split; [unfold questions in *; rewrite flat_map_app, length_app; simpl;
                  rewrite Hqq, Hq; lia|].
          intros j _ Hj. destruct (Nat.eq_dec j k) as [->|Hne].
          + exists (new ++ pre), [].
            rewrite !firstn_all2 by lia.
            split; [rewrite HX', HY'; reflexivity|].
            split; [exact Hcomb|]. rewrite Hqq. exact Hq.
          + rewrite <- app_assoc.
            apply asked_after_recording_extend; [lia|lia|].
            apply Hask; [discriminate|lia].
        - destruct Htf as [_ Hcw].
          exists (new ++ pre).
          split; [rewrite Hcw, Hc, <- !app_assoc; reflexivity|].
          split; [exact Hcomb|]. split; [rewrite Hqq; exact Hq|].
          intros j Hn. contradiction Hn. reflexivity. }
      destruct Hrest as (new' & Hc' & Hup' & Hq' & Hask').
      destruct b.
      + intros _. exists (Xs ++ [loc]), (Ys ++ [y]), new'.
        split; [exact HX'|]. split; [exact HY'|]. split; [lia|].
        split; [exact Hc'|]. split; [exact Hg'|].
        split; [left; exists k; repeat split; auto; lia|].
        intros j Hn Hj. apply Hask'; [exact Hn|lia].
      + exists (Xs ++ [loc]), (Ys ++ [y]), new'.
        split; [exact HX'|]. split; [exact HY'|]. split; [exact HlX'|].
        split; [exact HlY'|]. split; [exact Hc'|]. split; [exact Hg'|].
        split; [exact Hup'|]. split; [exact Hq'|].
        split; [intros j Hj; apply Hall; [exact Hj|reflexivity]|exact Hask'].
    - intros wk
        (Xs & Ys & new & HX & HY & HlX & HlY & Hc & Hg & Hup & Hq & Hans & Hask) _.
      exists Xs, Ys, new. split; [exact HX|]. split; [exact HY|]. split; [lia|].
      split; [exact Hc|]. split; [exact Hg|].
      split; [right; split; [exact Hans|exact HlY]|].
      intros j Hn Hj. apply Hask; [exact Hn|lia].
    - exists [], [], [Call_bar (tqdm (Z.of_nat n))]. unfold w0, X0, Y0. simpl.
      rewrite !app_nil_r.
      split; [reflexivity|]. split; [reflexivity|]. split; [reflexivity|].
      split; [reflexivity|]. split; [reflexivity|].
      split; [symmetry; apply surrogate_after_nil|]. split; [reflexivity|].
      split; [destruct terminate_function; reflexivity|].
      split; intros; lia. }
  destruct H as (Xs & Ys & new & HX & HY & Hlen & Hc & Hg & Hcases & Hask).
  exists Xs, Ys, (new ++ [Call_bar close]).
  split; [exact HX|]. split; [exact HY|]. split; [exact Hlen|].
  split; [rewrite Hc, <- app_assoc; reflexivity|]. split; [exact Hg|].
  split.
  - unfold stops_as_asked. cbv zeta. fold X0 Y0.
    destruct Hcases as [(i & Hi & Htrue & Hfalse & Hl)|(Hfalse & Hl)].
    + left. exists i. repeat split; auto; lia.
    + right. split; [|lia]. intros k Hk. apply Hfalse. lia.
  - intros k Hn Hk.
    rewrite <- (app_nil_r Xs), <- (app_nil_r Ys).
    apply asked_after_recording_extend; [lia|lia|]. apply Hask; assumption.
Qed.

(** C2: a run with a horizon that is not negative and that returns leaves
    histories that grew by [min(max_iter, i + 1)] entries, for the first
    iteration [i] of this run at which the predicate answers true, and by
    [max_iter] entries when it never does or there is no predicate: the
    count of trials, which is the length of both histories, is the count
    before the run plus this number, and is this number for a run on an
    object that has no history yet.  The observation of every iteration,
    the stopping one included, is recorded before the predicate of that
    iteration is asked: the question comes after the update of the
    surrogate with this observation, which is the last update before it,
    the histories it carries end with this observation, and the surrogate
    holds all the observations when the run returns. *)
Theorem history_grows_by_horizon_or_first_stop
    max_iter terminate_function w w' :
  0 <= max_iter ->
  run_optim max_iter terminate_function w = (w', Ok tt) ->
  exists Xs Ys new,
    X_history (self w') = X_history (self w) ++ Xs /\
    Y_history (self w') = Y_history (self w) ++ Ys /\
    calls w' = calls w ++ new /\
    length Xs = length Ys /\
    n_trial (self w') = n_trial (self w) + Z.of_nat (length Ys) /\
    (X_history (self w) = [] -> Y_history (self w) = [] ->
     Z.of_nat (length (X_history (self w'))) = n_trial (self w') /\
     n_trial (self w') = Z.of_nat (length Ys)) /\
    stops_as_asked terminate_function max_iter
      (X_history (self w)) (Y_history (self w)) Xs Ys /\
    gpr (self w') = surrogate_after (self w) Xs Ys /\
    (forall k, terminate_function <> None -> (k < length Ys)%nat ->
       asked_after_recording (X_history (self w)) (Y_history (self w))
         Xs Ys new k).
Proof.
  intros Hmax Hrun.
  destruct (run_optim_stops _ _ Hmax Hrun)
    as (Xs & Ys & new & HX & HY & Hlen & Hc & Hg & Hstop & Hask).
  exists Xs, Ys, new.
  split; [exact HX|]. split; [exact HY|]. split; [exact Hc|].
  split; [exact Hlen|].
  split; [unfold n_trial; rewrite HY, length_app; lia|].
  split; [|split; [exact Hstop|split; [exact Hg|exact Hask]]].
  intros HX0 HY0. unfold n_trial. rewrite HX, HY, HX0, HY0. simpl.
  rewrite Hlen. split; reflexivity.
Qed.

(** ** The two calling conventions *)

Lemma evaluations_app (l l' : list (call num)) :
  evaluations (l ++ l') = evaluations l ++ evaluations l'.
Proof. apply flat_map_app. Qed.

Lemma evaluations_objective_calls (pass : list num -> call_args num)
    (X : list (list num)) :
  evaluations (map (fun x => Call_objective (pass x)) X) = map pass X.
Proof.
  unfold evaluations. induction X as [|x X IH]; [reflexivity|].
  simpl. rewrite IH. reflexivity.
Qed.

Lemma Forall2_combine_In {A B} (P : A -> B -> Prop) (l : list A) (l' : list B) a b :
  Forall2 P l l' -> In (a, b) (combine l l') -> P a b.
Proof.
  intros H. induction H as [|x y l l' Hxy _ IH]; simpl; [intros []|].
  intros [E|Hin]; [injection E as <- <-; exact Hxy|auto].
Qed.

(** A construction without initial values and a run after it, in one mode:
    the objective is called through the convention of the object on the
    initial locations and on the proposed ones, once each. *)
Lemma construction_and_run_evaluate (f : objective_fn num) initial_input
    (acq0 : acq_fn) acq_optim kernel0 alpha0 maximize0 unpack l o
    max_iter terminate_function :
  __init__ f initial_input acq0 acq_optim None kernel0 alpha0 maximize0 unpack []
  = (l, Ok o) ->
  let r := run_optim max_iter terminate_function (mkWorld o l) in
  exists ys extra,
    evaluated_through (objective_args unpack) f (self (fst r)) ys
      (calls (fst r)) extra /\
    (length extra <= 1)%nat /\
    initial_X (self (fst r)) = initial_X o /\
    (snd r = Ok tt ->
     extra = [] /\
     (0 <= max_iter ->
      stops_as_asked terminate_function max_iter [] []
        (X_history (self (fst r))) (Y_history (self (fst r))))).
Proof.
  intros Hinit. cbv zeta.
  destruct (init_default _ _ _ _ _ _ _ _ _ Hinit) as (ys & HY & HF & Hlog).
  pose proof (init_ok _ _ _ _ _ _ _ _ _ _ Hinit)
    as (HX0 & HY0 & _ & _ & _ & _ & _ & Hf & Hu & _).
  destruct (run_optim_trace max_iter terminate_function (mkWorld o l))
    as (Xs & Ys & new & m & Hext & _ & Hc & Hm & _ & Hdone & _ & _
        & (extra & Hev & Hex) & _).
  cbn [self calls fst snd] in Hext, Hc, Hev, Hex, Hdone.
  destruct Hext as (Hcfg & Hlen & HXs & HYs & _).
  destruct Hcfg as (Hf' & HiX & Hu' & HiY & _).
  rewrite HX0 in HXs. rewrite HY0 in HYs. simpl in HXs, HYs.
  assert (Hhist : history_evaluates
            (self (fst (run_optim max_iter terminate_function (mkWorld o l))))).
  { apply (run_optim_invariant (fun o => history_evaluates o));
      [intros; now apply iteration_history_evaluates|].
    unfold history_evaluates. simpl. rewrite HX0, HY0. constructor. }
  unfold history_evaluates in Hhist. rewrite Hf', Hu', Hf, Hu in Hhist.
  exists ys, extra. split; [|split; [lia|split; [exact HiX|]]].
  - unfold evaluated_through. rewrite HiX, HiY.
    split; [exact HY|]. split; [exact HF|]. split; [exact Hhist|].
    rewrite HXs, Hc, evaluations_app, Hev, Hu, Hlog. simpl.
    rewrite evaluations_app, evaluations_objective_calls. simpl.
    rewrite app_nil_r, map_app, <- app_assoc. reflexivity.
  - intros Hr. split.
    + specialize (Hdone Hr). destruct extra; [reflexivity|simpl in Hex; lia].
    + intros Hmax.
      destruct (@run_optim_stops max_iter terminate_function (mkWorld o l)
                  (fst (run_optim max_iter terminate_function (mkWorld o l)))
                  Hmax)
        as (Xs' & Ys' & _ & HXs' & HYs' & _ & _ & _ & Hstop & _).
      { rewrite <- Hr. apply surjective_pairing. }
      cbn [self] in HXs', HYs', Hstop.
      rewrite HX0 in HXs', Hstop. rewrite HY0 in HYs', Hstop.
      simpl in HXs', HYs'. rewrite HXs', HYs'. exact Hstop.
Qed.

(** C5: the convention chosen at construction is the one of every call of
    the objective, for the default initial values and in the loop alike.
    An object built without initial values in the unpacked mode, and then
    run, has called the objective with the coordinates of the location as
    separate positional arguments, once on each initial location and once
    on each proposed location, in this order; one built in the packed mode
    has called it in the same way with the location as one two-dimensional
    array of one row; at most one call more was made, for the observation
    of an iteration that failed, and none in a run that returns, which
    made as many observations as the horizon and the predicate ask for.
    The values kept for the initial batch and in the history are what the
    objective answered at the location they go with.  Hence, for two
    objectives that answer the same value at every location of dimension
    [D], whatever its form, a location of dimension [D] that both modes
    observed has the same value in both. *)
Theorem objective_convention_is_uniform
    (same : num -> num -> Prop) (D : nat) (f_u f_p : objective_fn num)
    initial_input (acq0 : acq_fn) acq_optim kernel0 alpha0 maximize0
    max_iter terminate_function l_u l_p o_u o_p :
  (forall x y_u y_p, length x = D ->
     f_u (Positional x) = Ok y_u -> f_p (Packed (atleast_2d x)) = Ok y_p ->
     same y_u y_p) ->
  __init__ f_u initial_input acq0 acq_optim None kernel0 alpha0 maximize0 true []
  = (l_u, Ok o_u) ->
  __init__ f_p initial_input acq0 acq_optim None kernel0 alpha0 maximize0 false []
  = (l_p, Ok o_p) ->
  let r_u := run_optim max_iter terminate_function (mkWorld o_u l_u) in
  let r_p := run_optim max_iter terminate_function (mkWorld o_p l_p) in
  exists ys_u ys_p extra_u extra_p,
    evaluated_through (@Positional num) f_u (self (fst r_u)) ys_u
      (calls (fst r_u)) extra_u /\
    evaluated_through (fun x => Packed (atleast_2d x)) f_p (self (fst r_p)) ys_p
      (calls (fst r_p)) extra_p /\
    (length extra_u <= 1)%nat /\ (length extra_p <= 1)%nat /\
    transform_data initial_input = Ok (initial_X (self (fst r_u))) /\
    initial_X (self (fst r_u)) = initial_X (self (fst r_p)) /\
    (snd r_u = Ok tt ->
     extra_u = [] /\
     (0 <= max_iter ->
      stops_as_asked terminate_function max_iter [] []
        (X_history (self (fst r_u))) (Y_history (self (fst r_u))))) /\
    (snd r_p = Ok tt ->
     extra_p = [] /\
     (0 <= max_iter ->
      stops_as_asked terminate_function max_iter [] []
        (X_history (self (fst r_p))) (Y_history (self (fst r_p))))) /\
    (forall loc y_u y_p, length loc = D ->
       In (loc, y_u) (observations (self (fst r_u)) ys_u) ->
       In (loc, y_p) (observations (self (fst r_p)) ys_p) ->
       same y_u y_p).
Proof.
  intros Hsame Hu Hp. cbv zeta.
  destruct (@construction_and_run_evaluate f_u initial_input acq0 acq_optim
              kernel0 alpha0 maximize0 true l_u o_u max_iter terminate_function Hu)
    as (ys_u & extra_u & Heu & Hlu & HXu & Hru).
  destruct (@construction_and_run_evaluate f_p initial_input acq0 acq_optim
              kernel0 alpha0 maximize0 false l_p o_p max_iter terminate_function Hp)
    as (ys_p & extra_p & Hep & Hlp & HXp & Hrp).
  pose proof (init_ok _ _ _ _ _ _ _ _ _ _ Hu) as (_ & _ & _ & _ & _ & _ & HTu & _).
  pose proof (init_ok _ _ _ _ _ _ _ _ _ _ Hp) as (_ & _ & _ & _ & _ & _ & HTp & _).
  exists ys_u, ys_p, extra_u, extra_p.
  split; [exact Heu|]. split; [exact Hep|]. split; [exact Hlu|].
  split; [exact Hlp|].
  split; [rewrite HXu; exact HTu|].
  split; [rewrite HXu, HXp; rewrite HTu in HTp; injection HTp as ->; reflexivity|].
  split; [exact Hru|]. split; [exact Hrp|].
  intros loc y_u y_p HD Hin_u Hin_p.
  destruct Heu as (_ & HFu & HHu & _). destruct Hep as (_ & HFp & HHp & _).
  apply (Hsame loc y_u y_p HD).
  - exact (@Forall2_combine_In _ _ (fun x y => f_u (Positional x) = Ok y)
             _ _ loc y_u (Forall2_app HFu HHu) Hin_u).
  - exact (@Forall2_combine_In _ _ (fun x y => f_p (Packed (atleast_2d x)) = Ok y)
             _ _ loc y_p (Forall2_app HFp HHp) Hin_p).
Qed.

End Properties.

(** * The properties on the concrete instance *)

Section Instances.

Import Demo.

#[local] Existing Instance quiet.

Lemma Z_ltb_irrefl (a : Z) : ltb a a = false.
Proof. apply Z.ltb_irrefl. Qed.

Lemma Z_ltb_trans (a b c : Z) :
  ltb a b = true -> ltb b c = true -> ltb a c = true.
Proof. simpl. rewrite !Z.ltb_lt. lia. Qed.

Lemma built_by_init :
  __init__ f_unpacked (Arr2 [[0; 0]]) tt propose None None default_alpha false
    true [] = (built_log, Ok built).
Proof. reflexivity. Qed.

Lemma reachable_after_run max_iter (terminate_function : option (terminate_fn Z)) :
  reachable (self (fst (run_optim max_iter terminate_function start))).
Proof.
  eapply reach_run; [eapply reach_init, built_by_init|].
  apply surjective_pairing.
Qed.

(** C1 fails as stated: built on the initial location [0, 0] with value [0]
    and run for one iteration, the minimising object reports the best value
    [10], which is not minimal over the initial values and the history. *)
Lemma best_ignores_initial_batch :
  exists log o,
    __init__ f_unpacked (Arr2 [[0; 0]]) tt propose None None default_alpha false
      true [] = (log, Ok o) /\
    let r := run_optim 1 None (mkWorld o log) in
    snd r = Ok tt /\
    initial_values (self (fst r)) = [0] /\
    best_value (self (fst r)) = Some 10 /\
    ~ (exists v, best_value (self (fst r)) = Some v /\
                 extremum_of (maximize (self (fst r)))
                   (initial_values (self (fst r)) ++ Y_history (self (fst r))) v).
Proof.
  exists built_log, built. split; [exact built_by_init|]. cbv zeta.
  split; [vm_compute; reflexivity|]. split; [vm_compute; reflexivity|].
  split; [vm_compute; reflexivity|].
  intros (v & Hv & _ & Hall).
  vm_compute in Hv. injection Hv as <-.
  specialize (Hall 0 (or_introl eq_refl)). vm_compute in Hall. discriminate Hall.
Qed.

Lemma best_is_extremum_of_history_witness :
  let o := self (fst (run_optim 3 None start)) in
  reachable o /\
  match best_value o with
  | None => Y_history o = [] /\ best_params o = None
  | Some v =>
      extremum_of (maximize o) (Y_history o) v /\
      exists p j, best_params o = Some p /\
                  nth_error (X_history o) j = Some p /\
                  nth_error (Y_history o) j = Some v
  end.
Proof.
  cbv zeta. split; [apply reachable_after_run|].
  apply (best_is_extremum_of_history Z_ltb_irrefl Z_ltb_trans
           (reachable_after_run 3 None)).
Defined.

Lemma best_changes_only_on_strict_improvement_witness :
  let w1 := fst (run_optim_body None 0 start) in
  let o' := self (fst (run_optim_body None 1 w1)) in
  ((forall a : Z, ltb a a = false) /\
   best_value (self w1) = Some 10 /\ best_params (self w1) = Some [3; 1]) /\
  ((X_history o' = X_history (self w1) /\ Y_history o' = Y_history (self w1) /\
    best_value o' = Some 10 /\ best_params o' = Some [3; 1]) \/
   exists loc y,
     X_history o' = X_history (self w1) ++ [loc] /\
     Y_history o' = Y_history (self w1) ++ [y] /\
     ((better (maximize (self w1)) y 10 = true /\ y <> 10 /\
       best_value o' = Some y /\ best_params o' = Some loc) \/
      (better (maximize (self w1)) y 10 = false /\
       best_value o' = Some 10 /\ best_params o' = Some [3; 1]))) /\
  (best_value (self (fst (run_optim 2 None w1))) <> None /\
   best_params (self (fst (run_optim 2 None w1))) <> None).
Proof.
  cbv zeta.
  split; [split; [exact Z_ltb_irrefl|split; vm_compute; reflexivity]|]. split.
  - apply (proj1 (best_changes_only_on_strict_improvement Z_ltb_irrefl) None 1
             (fst (run_optim_body None 0 start)) 10 [3; 1]);
      vm_compute; reflexivity.
  - apply (proj2 (best_changes_only_on_strict_improvement Z_ltb_irrefl) 2 None
             (fst (run_optim_body None 0 start))).
    split; vm_compute; discriminate.
Defined.

Lemma mismatched_initial_values_are_rejected_witness :
  let X := [[0; 0]; [1; 1]; [2; 2]; [3; 3]; [4; 4]] in
  let build Y :=
    __init__ f_unpacked five_locations tt propose (Some Y) None default_alpha
      false true [] in
  (transform_data five_locations = Ok X /\
   shape0 four_values <> shape0 five_locations /\
   shape0 five_values = shape0 five_locations) /\
  build four_values =
    ([], Raise (ValueError "Y must be the same size as the number of data in X.")) /\
  exists o,
    build five_values =
      ([] ++ [Call_GPR X (Arr2 [[0]; [2]; [8]; [18]; [32]])], Ok o) /\
    initial_X o = X /\ initial_Y o = Arr2 [[0]; [2]; [8]; [18]; [32]] /\
    X_train (gpr o) = X /\ Y_train (gpr o) = [[0]; [2]; [8]; [18]; [32]].
Proof.
  cbv zeta. split; [split; [reflexivity|split; [simpl; lia|reflexivity]]|]. split.
  - apply (proj1 (@mismatched_initial_values_are_rejected Z unit quiet f_unpacked
                    five_locations tt propose four_values None default_alpha
                    false true [] _ eq_refl)).
    simpl. lia.
  - apply (proj2 (@mismatched_initial_values_are_rejected Z unit quiet f_unpacked
                    five_locations tt propose five_values None default_alpha
                    false true [] _ eq_refl)); reflexivity.
Defined.



Lemma surrogate_trains_on_batch_then_history_witness :
  let r := run_optim 3 None start in
  (__init__ f_unpacked (Arr2 [[0; 0]]) tt propose None None default_alpha false
     true [] = (built_log, Ok built) /\
   run_optim 3 None (mkWorld built built_log) = (fst r, snd r)) /\
  in_step built /\ in_step (self (fst r)) /\
  initial_X (self (fst r)) = initial_X built /\
  initial_Y (self (fst r)) = initial_Y built /\
  forall g it, In (Call_acq_optimizer g it) (calls (fst r)) ->
    exists k,
      it = Z.of_nat k /\ (k <= length (X_history (self (fst r))))%nat /\
      X_train g = initial_X built ++ firstn k (X_history (self (fst r))) /\
      Y_train g = rows_of (initial_Y built) ++
                  map (fun y => [y]) (firstn k (Y_history (self (fst r)))).
Proof.
  cbv zeta. split; [split; [reflexivity|apply surjective_pairing]|].
  apply (@surrogate_trains_on_batch_then_history Z unit quiet f_unpacked
           (Arr2 [[0; 0]]) tt propose None None default_alpha false true
           built_log built 3 None (fst (run_optim 3 None start))
           (snd (run_optim 3 None start)));
    [reflexivity|apply surjective_pairing].
Defined.


Lemma best_pair_is_recorded_observation_witness :
  let o := self (fst (run_optim 3 None start)) in
  (reachable o /\ best_value o = Some 2) /\
  exists p j Xh Yh,
    param_history o = Arr2 Xh /\ value_history o = Arr1 Yh /\
    best_params o = Some p /\
    nth_error Xh j = Some p /\ nth_error Yh j = Some 2.
Proof.
  cbv zeta. split; [split; [apply reachable_after_run|vm_compute; reflexivity]|].
  apply (best_pair_is_recorded_observation (reachable_after_run 3 None)).
  vm_compute. reflexivity.
Defined.

End Instances.

Section BrokenBar.

Import Demo.

#[local] Existing Instance broken_bar.



End BrokenBar.

(** * The further properties on the concrete instance *)

Section MoreInstances.

Import Demo.

#[local] Existing Instance quiet.

Lemma Z_ltb_between (a b c : Z) :
  ltb a b = true -> ltb a c = true \/ ltb c b = true.
Proof. simpl. rewrite !Z.ltb_lt. lia. Qed.

Lemma no_iteration_for_nonpositive_horizon_witness :
  let r := run_optim (-3) (Some (below 3)) start in
  (-3 <= 0 /\ forall b : bar_call Z, tqdm_bar b = Ok tt) /\
  self (fst r) = self start /\
  (exists new, calls (fst r) = calls start ++ new /\
               Forall (@is_bar_call Z) new) /\
  r = (mkWorld (self start)
         (calls start ++ [Call_bar (tqdm (-3)); Call_bar close]), Ok tt).
Proof.
  cbv zeta. split; [split; [lia|reflexivity]|].
  pose proof (@no_iteration_for_nonpositive_horizon Z unit quiet (-3)
                (Some (below 3)) start ltac:(lia)) as (H1 & H2 & H3).
  split; [exact H1|]. split; [exact H2|]. apply H3. reflexivity.
Defined.

Lemma objective_failure_aborts_construction_witness :
  let X := [[0; 0]; [1; 1]; [2; 2]; [3; 3]; [4; 4]] in
  let e := UserCallableError "domain" in
  (transform_data five_locations = Ok X /\
   nth_error X 2 = Some [2; 2] /\
   f_domain (objective_args true [2; 2]) = Raise e) /\
  __init__ f_domain five_locations tt propose None None default_alpha false true []
  = ([] ++ map (fun x => Call_objective (objective_args true x)) (firstn 3 X),
     Raise e).
Proof.
  cbv zeta. split; [repeat split|].
  apply (@objective_failure_aborts_construction Z unit quiet f_domain
           five_locations tt propose None default_alpha false true []
           [[0; 0]; [1; 1]; [2; 2]; [3; 3]; [4; 4]] 2%nat [2; 2]
           (UserCallableError "domain")); try reflexivity.
  intros [|[|k]] x' Hk Hx'; [| |lia]; injection Hx' as <-; eexists; reflexivity.
Defined.

Lemma histories_are_parallel_witness :
  let o := self (fst (run_optim 3 (Some raising_predicate) start)) in
  reachable o /\
  length (X_history o) = length (Y_history o) /\
  n_trial o = Z.of_nat (length (X_history o)) /\
  shape0 (param_history o) = shape0 (value_history o).
Proof.
  cbv zeta. split; [apply reachable_after_run|].
  apply (histories_are_parallel
           (reachable_after_run 3 (Some raising_predicate))).
Defined.

Lemma later_runs_stop_on_the_whole_history_witness :
  let w1 := fst (run_optim 2 None start) in
  let r := run_optim 5 (Some (below 3)) w1 in
  (0 <= 5 /\ r = (fst r, Ok tt) /\ Y_history (self w1) = [10; 5]) /\
  exists Xs Ys,
    X_history (self (fst r)) = X_history (self w1) ++ Xs /\
    Y_history (self (fst r)) = Y_history (self w1) ++ Ys /\
    length Xs = length Ys /\
    n_trial (self (fst r)) = n_trial (self w1) + Z.of_nat (length Ys) /\
    let answer := predicate_answer_from (Some (below 3))
                    (X_history (self w1)) (Y_history (self w1)) Xs Ys in
    (exists i, Z.of_nat i < 5 /\ answer i = Ok true /\
               (forall k, (k < i)%nat -> answer k = Ok false) /\
               Z.of_nat (length Ys) = Z.min 5 (Z.of_nat i + 1)) \/
    ((forall k, Z.of_nat k < 5 -> answer k = Ok false) /\
     Z.of_nat (length Ys) = 5).
Proof.
  cbv zeta.
  split; [split; [lia|split; vm_compute; reflexivity]|].
  apply (@later_runs_stop_on_the_whole_history Z unit quiet 5 (Some (below 3))
           (fst (run_optim 2 None start))
           (fst (run_optim 5 (Some (below 3)) (fst (run_optim 2 None start)))));
    [lia|vm_compute; reflexivity].
Defined.

Lemma best_is_the_earliest_extremum_witness :
  let o := self (fst (run_optim 3 None (fst (run_optim 3 None start)))) in
  (reachable o /\ Y_history o = [10; 5; 2; 10; 5; 2]) /\
  exists j,
    nth_error (X_history o) j = best_params o /\
    nth_error (Y_history o) j = best_value o /\
    forall v, best_value o = Some v ->
      (forall k u, nth_error (Y_history o) k = Some u ->
                   better (maximize o) u v = false) /\
      (forall k u, (k < j)%nat -> nth_error (Y_history o) k = Some u ->
                   better (maximize o) v u = true).
Proof.
  assert (Hr : reachable
                 (self (fst (run_optim 3 None (fst (run_optim 3 None start)))))).
  { apply (@reach_run Z unit quiet
             (self (fst (run_optim 3 None start))) 3 None
             (calls (fst (run_optim 3 None start)))
             (fst (run_optim 3 None (fst (run_optim 3 None start))))
             (snd (run_optim 3 None (fst (run_optim 3 None start))))
             (reachable_after_run 3 None)).
    vm_compute; reflexivity. }
  cbv zeta. split; [split; [exact Hr|vm_compute; reflexivity]|].
  apply (best_is_the_earliest_extremum Z_ltb_irrefl Z_ltb_trans Z_ltb_between Hr).
Defined.

Lemma progress_message_shows_the_updated_best_witness :
  let r := run_optim_body None 0 start in
  let new := [Call_acq_optimizer (gpr built) 0;
              Call_objective (Positional [3; 1]);
              Call_append_data [[3; 1]] 10;
              Call_bar (set_description_str "BayesOpt");
              Call_bar (set_postfix_str [3; 1] 10 (Some [3; 1]) (Some 10));
              Call_bar update] in
  (calls (fst r) = calls start ++ new /\
   In (set_postfix_str [3; 1] 10 (Some [3; 1]) (Some 10)) (bar_messages new)) /\
  recorded (self start) (self (fst r)) [3; 1] 10 /\
  Some [3; 1] = best_params (self (fst r)) /\
  Some 10 = best_value (self (fst r)) /\ Some 10 <> @None Z.
Proof.
  cbv zeta. split; [split; [vm_compute; reflexivity|simpl; auto]|].
  apply (@progress_message_shows_the_updated_best Z unit quiet None 0 start
           [Call_acq_optimizer (gpr built) 0;
            Call_objective (Positional [3; 1]);
            Call_append_data [[3; 1]] 10;
            Call_bar (set_description_str "BayesOpt");
            Call_bar (set_postfix_str [3; 1] 10 (Some [3; 1]) (Some 10));
            Call_bar update]
           [3; 1] 10 (Some [3; 1]) (Some 10));
    [vm_compute; reflexivity|simpl; auto].
Defined.

Lemma direction_does_not_steer_the_search_witness :
  let c_min := __init__ f_unpacked (Arr2 [[0; 0]]) tt propose None None
                 default_alpha false true [] in
  let c_max := __init__ f_unpacked (Arr2 [[0; 0]]) tt propose None None
                 default_alpha true true [] in
  (forall (loc : list Z) (y : Z) bp bv bp' bv',
     tqdm_bar (set_postfix_str loc y bp bv)
     = tqdm_bar (set_postfix_str loc y bp' bv')) /\
  fst c_min = fst c_max /\
  match snd c_min, snd c_max with
  | Ok o_min, Ok o_max =>
      let r_min := run_optim 3 (Some (below 3)) (mkWorld o_min (fst c_min)) in
      let r_max := run_optim 3 (Some (below 3)) (mkWorld o_max (fst c_max)) in
      X_history (self (fst r_min)) = X_history (self (fst r_max)) /\
      Y_history (self (fst r_min)) = Y_history (self (fst r_max)) /\
      gpr (self (fst r_min)) = gpr (self (fst r_max)) /\
      snd r_min = snd r_max
  | Raise e_min, Raise e_max => e_min = e_max
  | _, _ => False
  end.
Proof.
  cbv zeta. split; [reflexivity|].
  apply (@direction_does_not_steer_the_search Z unit quiet
           (fun _ _ _ _ _ _ => eq_refl) f_unpacked (Arr2 [[0; 0]]) tt propose
           None None default_alpha true 3 (Some (below 3))).
Defined.

End MoreInstances.

(** * The conventions on values as numpy holds them *)

Section Conventions.

Import Demo.

#[local] Existing Instance numpy_values.

Lemma built_two_by_init :
  __init__ f_two two_locations tt propose_np None None default_alpha false true []
  = (built_two_log, Ok built_two).
Proof. vm_compute; reflexivity. Qed.

Lemma built_rows_by_init :
  __init__ f_rows two_locations tt propose_np None None default_alpha false false []
  = (built_rows_log, Ok built_rows).
Proof. vm_compute; reflexivity. Qed.

Lemma f_two_f_rows_agree (x : list npz) (y_u y_p : npz) :
  length x = 2%nat ->
  f_two (Positional x) = Ok y_u -> f_rows (Packed (atleast_2d x)) = Ok y_p ->
  item y_u = item y_p.
Proof.
  intros Hx Hu Hp.
  destruct x as [|a [|b [|c x]]]; try discriminate Hx.
  simpl in Hu, Hp. injection Hu as <-. injection Hp as <-. simpl. lia.
Qed.

Lemma default_initial_values_are_objective_values_witness :
  (__init__ f_rows two_locations tt propose_np None None default_alpha false
     false [] = (built_rows_log, Ok built_rows) /\
   initial_Y built_rows = Arr2 [[array1 0]; [array1 5]]) /\
  exists ys,
    np_array ys = Ok (initial_Y built_rows) /\
    length ys = length (initial_X built_rows) /\
    shape0 (initial_Y built_rows) = length (initial_X built_rows) /\
    Forall2 (fun x y => f_rows (objective_args false x) = Ok y)
            (initial_X built_rows) ys /\
    built_rows_log
    = [] ++ map (fun x => Call_objective (objective_args false x))
                (initial_X built_rows)
         ++ [Call_GPR (initial_X built_rows) (initial_Y built_rows)] /\
    X_train (gpr built_rows) = initial_X built_rows /\
    Y_train (gpr built_rows) = rows_of (initial_Y built_rows) /\
    (Forall (fun y => ndim y = 0%nat) ys ->
     initial_Y built_rows = Arr1 ys /\
     Y_train (gpr built_rows) = map (fun y => [y]) ys) /\
    (ys <> [] -> Forall (fun y => ndim y = 1%nat) ys ->
     initial_Y built_rows = Arr2 (map (fun y => [y]) ys) /\
     Y_train (gpr built_rows) = map (fun y => [y]) ys).
Proof.
  split; [split; [exact built_rows_by_init|reflexivity]|].
  apply (@default_initial_values_are_objective_values npz unit numpy_values
           f_rows two_locations tt propose_np None default_alpha false false []
           built_rows_log built_rows built_rows_by_init).
Defined.

Lemma objective_convention_is_uniform_witness :
  let r_u := run_optim 3 None (mkWorld built_two built_two_log) in
  let r_p := run_optim 3 None (mkWorld built_rows built_rows_log) in
  ((forall x y_u y_p, length x = 2%nat ->
      f_two (Positional x) = Ok y_u -> f_rows (Packed (atleast_2d x)) = Ok y_p ->
      item y_u = item y_p) /\
   __init__ f_two two_locations tt propose_np None None default_alpha false true []
   = (built_two_log, Ok built_two) /\
   __init__ f_rows two_locations tt propose_np None None default_alpha false
     false [] = (built_rows_log, Ok built_rows) /\
   f_two (Positional [scalar 3; scalar 4]) = Ok (scalar 25) /\
   f_rows (Packed [[scalar 3; scalar 4]]) = Ok (array1 25) /\
   initial_Y built_two = Arr1 [scalar 0; scalar 5] /\
   initial_Y built_rows = Arr2 [[array1 0]; [array1 5]] /\
   Y_history (self (fst r_u)) = [scalar 10; scalar 5; scalar 2] /\
   Y_history (self (fst r_p)) = [array1 10; array1 5; array1 2]) /\
  exists ys_u ys_p extra_u extra_p,
    evaluated_through (@Positional npz) f_two (self (fst r_u)) ys_u
      (calls (fst r_u)) extra_u /\
    evaluated_through (fun x => Packed (atleast_2d x)) f_rows (self (fst r_p)) ys_p
      (calls (fst r_p)) extra_p /\
    (length extra_u <= 1)%nat /\ (length extra_p <= 1)%nat /\
    transform_data two_locations = Ok (initial_X (self (fst r_u))) /\
    initial_X (self (fst r_u)) = initial_X (self (fst r_p)) /\
    (snd r_u = Ok tt ->
     extra_u = [] /\
     (0 <= 3 ->
      stops_as_asked None 3 [] []
        (X_history (self (fst r_u))) (Y_history (self (fst r_u))))) /\
    (snd r_p = Ok tt ->
     extra_p = [] /\
     (0 <= 3 ->
      stops_as_asked None 3 [] []
        (X_history (self (fst r_p))) (Y_history (self (fst r_p))))) /\
    (forall loc y_u y_p, length loc = 2%nat ->
       In (loc, y_u) (observations (self (fst r_u)) ys_u) ->
       In (loc, y_p) (observations (self (fst r_p)) ys_p) ->
       item y_u = item y_p).
Proof.
  cbv zeta. split.
  - split; [exact f_two_f_rows_agree|].
    split; [exact built_two_by_init|]. split; [exact built_rows_by_init|].
    split; [reflexivity|]. split; [reflexivity|].
    split; [reflexivity|]. split; [reflexivity|].
    split; vm_compute; reflexivity.
  - apply (@objective_convention_is_uniform npz unit numpy_values
             (fun a b => item a = item b) 2%nat f_two f_rows two_locations tt
             propose_np None default_alpha false 3 None
             built_two_log built_rows_log built_two built_rows
             f_two_f_rows_agree built_two_by_init built_rows_by_init).
Defined.

End Conventions.

(** * Runs on an object that already has a history *)

Section LaterRuns.

Import Demo.

#[local] Existing Instance quiet.

(** C2 fails as stated on a run that is not the first: after a run of two
    iterations, a second run of two iterations with no predicate returns
    with four entries in the history, which is neither the horizon [2] nor
    [min(2, i + 1)] for any iteration [i]. *)
Lemma second_run_exceeds_the_horizon :
  let w1 := fst (run_optim 2 None start) in
  let r := run_optim 2 None w1 in
  snd (run_optim 2 None start) = Ok tt /\
  snd r = Ok tt /\
  Y_history (self (fst r)) = [10; 5; 10; 5] /\
  length (X_history (self (fst r))) = 4%nat /\
  n_trial (self (fst r)) = 4 /\
  n_trial (self (fst r)) <> 2 /\
  forall i, n_trial (self (fst r)) <> Z.min 2 (i + 1).
Proof.
  cbv zeta.
  assert (E : n_trial (self (fst (run_optim 2 None (fst (run_optim 2 None start)))))
              = 4) by (vm_compute; reflexivity).
  split; [vm_compute; reflexivity|]. split; [vm_compute; reflexivity|].
  split; [vm_compute; reflexivity|]. split; [vm_compute; reflexivity|].
  split; [exact E|]. rewrite E. split; [lia|]. intros i. lia.
Qed.

Lemma history_grows_by_horizon_or_first_stop_witness :
  let w1 := fst (run_optim 1 None start) in
  let r := run_optim 4 (Some (below 6)) w1 in
  (0 <= 4 /\ r = (fst r, Ok tt) /\
   Y_history (self w1) = [10] /\ Y_history (self (fst r)) = [10; 10; 5]) /\
  exists Xs Ys new,
    X_history (self (fst r)) = X_history (self w1) ++ Xs /\
    Y_history (self (fst r)) = Y_history (self w1) ++ Ys /\
    calls (fst r) = calls w1 ++ new /\
    length Xs = length Ys /\
    n_trial (self (fst r)) = n_trial (self w1) + Z.of_nat (length Ys) /\
    (X_history (self w1) = [] -> Y_history (self w1) = [] ->
     Z.of_nat (length (X_history (self (fst r)))) = n_trial (self (fst r)) /\
     n_trial (self (fst r)) = Z.of_nat (length Ys)) /\
    stops_as_asked (Some (below 6)) 4
      (X_history (self w1)) (Y_history (self w1)) Xs Ys /\
    gpr (self (fst r)) = surrogate_after (self w1) Xs Ys /\
    (forall k, Some (below 6) <> None -> (k < length Ys)%nat ->
       asked_after_recording (X_history (self w1)) (Y_history (self w1))
         Xs Ys new k).
Proof.
  cbv zeta. split.
  - split; [lia|]. split; [vm_compute; reflexivity|].
    split; vm_compute; reflexivity.
  - apply (@history_grows_by_horizon_or_first_stop Z unit quiet 4
             (Some (below 6)) (fst (run_optim 1 None start))
             (fst (run_optim 4 (Some (below 6)) (fst (run_optim 1 None start)))));
      [lia|vm_compute; reflexivity].
Defined.

End LaterRuns.
